(** * cms-core: site settings mapping, the settings cache of [useSiteSettings],
      and the change handlers of the page content editor.

    The development follows the three source files:
    - [SiteSettingsTypes]  : client/lib/siteSettingsTypes.ts
    - [UseSiteSettings]    : client/hooks/useSiteSettings.ts
    - [PageContentEditor]  : client/components/admin/PageContentEditor.tsx

    Each module embeds its source file and ends with the vocabulary the
    statements about it use; the sample data and the proofs follow the
    modules, one section per source file.
*)

From Stdlib Require Import ZArith Lia.
From stdpp Require Import base option list strings pretty.

Open Scope string_scope.

(* ===================================================================== *)
(** ** JavaScript value conventions shared by the three modules *)
(* ===================================================================== *)

(** A JavaScript string is falsy exactly when it is empty. *)
Definition truthy (s : string) : bool :=
  match s with
  | EmptyString => false
  | String _ _ => true
  end.

(** [v || d] for a nullable string [v] and a string [d]: [null], [undefined]
    and the empty string all select [d]. *)
Definition or_string (v : option string) (d : string) : string :=
  match v with
  | Some s => if truthy s then s else d
  | None => d
  end.

(** [v ?? d]: only [null] and [undefined] select [d]. *)
Definition nullish {A : Type} (v : option A) (d : A) : A :=
  match v with
  | Some a => a
  | None => d
  end.

(** [v?.length ? v : d]: an absent sequence and a sequence of length 0 both
    select [d]. *)
Definition nonempty_or {A : Type} (v : option (list A)) (d : list A) : list A :=
  match v with
  | Some (x :: l) => x :: l
  | Some [] => d
  | None => d
  end.

(** [s || null] for a string [s]. *)
Definition or_null (s : string) : option string :=
  if truthy s then Some s else None.

(* ===================================================================== *)
(** ** client/lib/siteSettingsTypes.ts *)
(* ===================================================================== *)

Module SiteSettingsTypes.

Record NavigationItem := {
  nav_label : string;
  nav_href : string;
  nav_order : option Z;            (* order?: number *)
  nav_openInNewTab : option bool   (* openInNewTab?: boolean *)
}.

Record FooterLink := {
  fl_label : string;
  fl_href : option string          (* href?: string *)
}.

Inductive Platform := facebook | instagram | twitter | linkedin | youtube.

Record SocialLink := {
  platform : Platform;
  url : string;
  enabled : bool
}.

Record SiteSettings := {
  siteName : string;
  logoUrl : string;
  logoAlt : string;
  phoneNumber : string;
  phoneDisplay : string;
  phoneAvailability : string;
  applyPhoneGlobally : bool;
  headerCtaText : string;
  headerCtaUrl : string;
  navigationItems : list NavigationItem;
  footerAboutLinks : list FooterLink;
  footerPracticeLinks : list FooterLink;
  addressLine1 : string;
  addressLine2 : string;
  mapEmbedUrl : string;
  socialLinks : list SocialLink;
  copyrightText : string;
  siteNoindex : bool;
  ga4MeasurementId : string;
  googleAdsId : string;
  googleAdsConversionLabel : string;
  headScripts : string;
  footerScripts : string
}.

(** The row as it arrives from the store.  [string | null] fields are
    [option string].  The interface declares the two booleans and the four
    sequences without [null], but [rowToSiteSettings] reads them with [??]
    and [?.], so the row type here admits their absence too ([None] stands
    for [null] and for a key that is missing). *)
Record SiteSettingsRow := {
  id : string;
  settings_key : string;
  logo_url : option string;
  logo_alt : option string;
  phone_number : option string;
  phone_display : option string;
  phone_availability : option string;
  apply_phone_globally : option bool;
  header_cta_text : option string;
  header_cta_url : option string;
  navigation_items : option (list NavigationItem);
  footer_about_links : option (list FooterLink);
  footer_practice_links : option (list FooterLink);
  address_line1 : option string;
  address_line2 : option string;
  map_embed_url : option string;
  social_links : option (list SocialLink);
  copyright_text : option string;
  site_noindex : option bool;
  ga4_measurement_id : option string;
  google_ads_id : option string;
  google_ads_conversion_label : option string;
  head_scripts : option string;
  footer_scripts : option string;
  site_name : option string;
  updated_at : string;
  updated_by : option string
}.

(** A key of [Partial<SiteSettingsRow>]: left out of the object, or present
    with a value of the row field's declared type. *)
Inductive Key (A : Type) :=
| Missing
| Present (a : A).
Arguments Missing {A}.
Arguments Present {A} a.

Record PartialRow := {
  p_id : Key string;
  p_settings_key : Key string;
  p_logo_url : Key (option string);
  p_logo_alt : Key (option string);
  p_phone_number : Key (option string);
  p_phone_display : Key (option string);
  p_phone_availability : Key (option string);
  p_apply_phone_globally : Key bool;
  p_header_cta_text : Key (option string);
  p_header_cta_url : Key (option string);
  p_navigation_items : Key (list NavigationItem);
  p_footer_about_links : Key (list FooterLink);
  p_footer_practice_links : Key (list FooterLink);
  p_address_line1 : Key (option string);
  p_address_line2 : Key (option string);
  p_map_embed_url : Key (option string);
  p_social_links : Key (list SocialLink);
  p_copyright_text : Key (option string);
  p_site_noindex : Key bool;
  p_ga4_measurement_id : Key (option string);
  p_google_ads_id : Key (option string);
  p_google_ads_conversion_label : Key (option string);
  p_head_scripts : Key (option string);
  p_footer_scripts : Key (option string);
  p_site_name : Key (option string);
  p_updated_at : Key string;
  p_updated_by : Key (option string)
}.

Definition DEFAULT_SITE_SETTINGS : SiteSettings := {|
  siteName := "Silva Trial Lawyers";
  logoUrl :=
    "https://cdn.builder.io/api/v1/image/assets%2F50bd0f2438824f8ea1271cf7dd2c508e%2F76aac573949f43688ef9e04aa97e4711?format=webp&width=800&height=1200";
  logoAlt := "Silva Trial Lawyers";
  phoneNumber := "4049057742";
  phoneDisplay := "404-905-7742";
  phoneAvailability := "Available 24/7";
  applyPhoneGlobally := true;
  headerCtaText := "GET HELP NOW";
  headerCtaUrl := "#book";
  navigationItems := [
    {| nav_label := "Home"; nav_href := "/"; nav_order := Some 1%Z;
       nav_openInNewTab := None |};
    {| nav_label := "About Us"; nav_href := "/about"; nav_order := Some 2%Z;
       nav_openInNewTab := None |};
    {| nav_label := "Practice Areas"; nav_href := "/practice-areas";
       nav_order := Some 3%Z; nav_openInNewTab := None |};
    {| nav_label := "Contact Us"; nav_href := "/contact"; nav_order := Some 4%Z;
       nav_openInNewTab := None |}
  ];
  footerAboutLinks := [
    {| fl_label := "About Us"; fl_href := Some "/about" |};
    {| fl_label := "Contact"; fl_href := Some "/contact" |}
  ];
  footerPracticeLinks := [
    {| fl_label := "Car Accidents"; fl_href := Some "/practice-areas" |};
    {| fl_label := "Truck Accidents"; fl_href := Some "/practice-areas" |};
    {| fl_label := "Motorcycle Accidents"; fl_href := Some "/practice-areas" |};
    {| fl_label := "Premises Liability"; fl_href := Some "/practice-areas" |};
    {| fl_label := "Workers Compensation"; fl_href := Some "/practice-areas" |};
    {| fl_label := "Wrongful Death"; fl_href := Some "/practice-areas" |}
  ];
  addressLine1 := "4120 Presidential Parkway, Suite 200";
  addressLine2 := "Atlanta, Georgia 30340";
  mapEmbedUrl :=
    "https://www.google.com/maps/embed?pb=!1m18!1m12!1m3!1d3313.5!2d-84.2!3d33.9!2m3!1f0!2f0!3f0!3m2!1i1024!2i768!4f13.1!3m3!1m2!1s0x0%3A0x0!2s4120+Presidential+Pkwy%2C+Atlanta%2C+GA+30340!5e0!3m2!1sen!2sus";
  socialLinks := [
    {| platform := facebook; url := "https://facebook.com"; enabled := true |};
    {| platform := instagram; url := "https://instagram.com"; enabled := true |}
  ];
  copyrightText := "Copyright Â© 2026 | Silva Trial Lawyers | All Rights Reserved";
  siteNoindex := false;
  ga4MeasurementId := "";
  googleAdsId := "";
  googleAdsConversionLabel := "";
  headScripts := "";
  footerScripts := ""
|}.

(** Helper to convert database row to SiteSettings interface. *)
Definition rowToSiteSettings (row : SiteSettingsRow) : SiteSettings := {|
  siteName := or_string (site_name row) (siteName DEFAULT_SITE_SETTINGS);
  logoUrl := or_string (logo_url row) (logoUrl DEFAULT_SITE_SETTINGS);
  logoAlt := or_string (logo_alt row) (logoAlt DEFAULT_SITE_SETTINGS);
  phoneNumber := or_string (phone_number row) (phoneNumber DEFAULT_SITE_SETTINGS);
  phoneDisplay := or_string (phone_display row) (phoneDisplay DEFAULT_SITE_SETTINGS);
  phoneAvailability :=
    or_string (phone_availability row) (phoneAvailability DEFAULT_SITE_SETTINGS);
  applyPhoneGlobally :=
    nullish (apply_phone_globally row) (applyPhoneGlobally DEFAULT_SITE_SETTINGS);
  headerCtaText := or_string (header_cta_text row) (headerCtaText DEFAULT_SITE_SETTINGS);
  headerCtaUrl := or_string (header_cta_url row) (headerCtaUrl DEFAULT_SITE_SETTINGS);
  navigationItems :=
    nonempty_or (navigation_items row) (navigationItems DEFAULT_SITE_SETTINGS);
  footerAboutLinks :=
    nonempty_or (footer_about_links row) (footerAboutLinks DEFAULT_SITE_SETTINGS);
  footerPracticeLinks :=
    nonempty_or (footer_practice_links row) (footerPracticeLinks DEFAULT_SITE_SETTINGS);
  addressLine1 := or_string (address_line1 row) (addressLine1 DEFAULT_SITE_SETTINGS);
  addressLine2 := or_string (address_line2 row) (addressLine2 DEFAULT_SITE_SETTINGS);
  mapEmbedUrl := or_string (map_embed_url row) (mapEmbedUrl DEFAULT_SITE_SETTINGS);
  socialLinks := nonempty_or (social_links row) (socialLinks DEFAULT_SITE_SETTINGS);
  copyrightText := or_string (copyright_text row) (copyrightText DEFAULT_SITE_SETTINGS);
  siteNoindex := nullish (site_noindex row) (siteNoindex DEFAULT_SITE_SETTINGS);
  ga4MeasurementId := or_string (ga4_measurement_id row) "";
  googleAdsId := or_string (google_ads_id row) "";
  googleAdsConversionLabel := or_string (google_ads_conversion_label row) "";
  headScripts := or_string (head_scripts row) "";
  footerScripts := or_string (footer_scripts row) ""
|}.

(** Helper to convert SiteSettings to database row format for updates. *)
Definition siteSettingsToRow (settings : SiteSettings) : PartialRow := {|
  p_id := Missing;
  p_settings_key := Missing;
  p_logo_url := Present (Some (logoUrl settings));
  p_logo_alt := Present (Some (logoAlt settings));
  p_phone_number := Present (Some (phoneNumber settings));
  p_phone_display := Present (Some (phoneDisplay settings));
  p_phone_availability := Present (Some (phoneAvailability settings));
  p_apply_phone_globally := Present (applyPhoneGlobally settings);
  p_header_cta_text := Present (Some (headerCtaText settings));
  p_header_cta_url := Present (Some (headerCtaUrl settings));
  p_navigation_items := Present (navigationItems settings);
  p_footer_about_links := Present (footerAboutLinks settings);
  p_footer_practice_links := Present (footerPracticeLinks settings);
  p_address_line1 := Present (Some (addressLine1 settings));
  p_address_line2 := Present (Some (addressLine2 settings));
  p_map_embed_url := Present (Some (mapEmbedUrl settings));
  p_social_links := Present (socialLinks settings);
  p_copyright_text := Present (Some (copyrightText settings));
  p_site_noindex := Present (siteNoindex settings);
  p_ga4_measurement_id := Present (or_null (ga4MeasurementId settings));
  p_google_ads_id := Present (or_null (googleAdsId settings));
  p_google_ads_conversion_label := Present (or_null (googleAdsConversionLabel settings));
  p_head_scripts := Present (or_null (headScripts settings));
  p_footer_scripts := Present (or_null (footerScripts settings));
  p_site_name := Present (Some (siteName settings));
  p_updated_at := Missing;
  p_updated_by := Missing
|}.

End SiteSettingsTypes.

(* ===================================================================== *)
(** ** client/hooks/useSiteSettings.ts *)
(* ===================================================================== *)

Module UseSiteSettings.
Import SiteSettingsTypes.

(** Values of class [Error] that the hook can see. *)
Inductive JsError :=
| HttpError (status : Z)                 (* new Error(`HTTP error: ${response.status}`) *)
| UnknownError                           (* new Error("Unknown error") *)
| NativeError (name message : string).   (* TypeError, SyntaxError, ... of the platform *)

(** What a [catch] clause receives: an [Error] or some other thrown value. *)
Inductive Thrown :=
| ThrowError (e : JsError)
| ThrowOther.

(** [err instanceof Error ? err : new Error("Unknown error")] *)
Definition as_error (err : Thrown) : JsError :=
  match err with
  | ThrowError e => e
  | ThrowOther => UnknownError
  end.

(** The value of [await response.json()].  A JSON value that is not an array
    is kept by its kind only; the elements of an array are taken at the type
    the source casts them to ([data[0] as SiteSettingsRow]), with [None] for
    a [null] element. *)
Inductive NonArray :=
| JNull
| JBool (b : bool)
| JNumber (n : Z)
| JString (s : string)
| JObject (keys : list string).

Inductive JsonData :=
| NotAnArray (v : NonArray)
| JArray (elems : list (option SiteSettingsRow)).

Definition Array_isArray (data : JsonData) : bool :=
  match data with
  | NotAnArray _ => false
  | JArray _ => true
  end.

(** [data.length], read only when [data] is an array. *)
Definition data_length (data : JsonData) : nat :=
  match data with
  | NotAnArray _ => 0
  | JArray elems => length elems
  end.

(** How [response.json()] settles. *)
Inductive Body :=
| BodyRejects (err : Thrown)
| BodyJson (data : JsonData).

(** How the network answers one [fetch(...)]. *)
Inductive FetchOutcome :=
| FetchRejects (err : Thrown)
| FetchResponse (status : Z) (body : Body).

(** [response.ok]: the status is in the range 200-299. *)
Definition response_ok (status : Z) : bool :=
  (200 <=? status)%Z && (status <=? 299)%Z.

Inductive PromiseState :=
| Pending
| Fulfilled (result : SiteSettings)
| Rejected (err : Thrown).

(** Where the [fetchSettings] call of one hook instance stands: returned,
    suspended at line 89 on the promise it created, or suspended at line 46
    on a promise it found in [fetchPromise]. *)
Inductive Awaiting :=
| Returned
| Started (p : nat)
| Joined (p : nat).

(** One mounted [useSiteSettings()]: its three [useState] cells, the
    [isMounted] flag of its effect and the position of its [fetchSettings]. *)
Record Hook := {
  settings : SiteSettings;
  isLoading : bool;
  error : option JsError;
  isMounted : bool;
  awaiting : Awaiting
}.

(** The module-level slots, the promises created so far (a promise is named
    by its position), the hook instances in mount order, and the number of
    [fetch] calls issued. *)
Record World := {
  settingsCache : option SiteSettings;
  fetchPromise : option nat;
  promises : list PromiseState;
  hooks : list Hook;
  requests : nat
}.

Definition initial : World := {|
  settingsCache := None;
  fetchPromise := None;
  promises := [];
  hooks := [];
  requests := 0
|}.

(** What can happen, one event per turn of the event loop.  [Mount] is the
    first render of a hook together with the run of its effect up to the first
    [await] (or to its return): between the creation of the promise, the
    [fetch] call inside it and the assignment to [fetchPromise] no other code
    runs.  The settling of a promise and the continuations that wait for it
    are separate events, so that every order of continuations is covered. *)
Inductive Event :=
| Mount                                  (* a component calls useSiteSettings() *)
| Respond (p : nat) (o : FetchOutcome)   (* the network answers the fetch of promise p *)
| Deliver (i : nat)                      (* the continuation of hook i runs *)
| Unmount (i : nat)                      (* the effect cleanup of hook i runs *)
| ClearSiteSettingsCache.

Definition set_hook (i : nat) (h : Hook) (w : World) : World := {|
  settingsCache := settingsCache w;
  fetchPromise := fetchPromise w;
  promises := promises w;
  hooks := <[i := h]> (hooks w);
  requests := requests w
|}.

Section Hook.

(** The hook imports these two values from [../../lib/siteSettingsTypes]. *)
Variable DEFAULT_SITE_SETTINGS : SiteSettings.
Variable rowToSiteSettings : SiteSettingsRow -> SiteSettings.

(** The body of the async function stored in [fetchPromise] (lines 61-86),
    as a function of what the network answers. *)
Definition fetch_body (o : FetchOutcome) : PromiseState :=
  match o with
  | FetchRejects err => Rejected err
  | FetchResponse status body =>
      if negb (response_ok status) then Rejected (ThrowError (HttpError status))
      else
        match body with
        | BodyRejects err => Rejected err
        | BodyJson data =>
            if negb (Array_isArray data) || Nat.eqb (data_length data) 0
            then Fulfilled DEFAULT_SITE_SETTINGS
            else
              match data with
              | JArray (Some row :: _) => Fulfilled (rowToSiteSettings row)
              | JArray (None :: _) =>
                  Rejected (ThrowError
                    (NativeError "TypeError" "Cannot read properties of null"))
              | _ => Fulfilled DEFAULT_SITE_SETTINGS
              end
        end
  end.

(** First render of the hook: the three [useState] initialisers. *)
Definition render (w : World) : Hook := {|
  settings :=
    match settingsCache w with
    | Some s => s
    | None => DEFAULT_SITE_SETTINGS
    end;
  isLoading :=
    match settingsCache w with
    | Some _ => false
    | None => true
    end;
  error := None;
  isMounted := true;
  awaiting := Returned
|}.

(** [fetchSettings()] up to its first suspension, run by the effect of the
    hook [h] that is being added to the world. *)
Definition fetchSettings (h : Hook) (w : World) : World :=
  match settingsCache w with
  | Some cached =>
      (* If already cached, use it *)
      let h' :=
        if isMounted h
        then {| settings := cached; isLoading := false; error := error h;
                isMounted := isMounted h; awaiting := Returned |}
        else h in
      {| settingsCache := settingsCache w; fetchPromise := fetchPromise w;
         promises := promises w; hooks := hooks w ++ [h'];
         requests := requests w |}
  | None =>
      match fetchPromise w with
      | Some p =>
          (* If fetch is already in progress, wait for it *)
          let h' := {| settings := settings h; isLoading := isLoading h;
                       error := error h; isMounted := isMounted h;
                       awaiting := Joined p |} in
          {| settingsCache := settingsCache w; fetchPromise := fetchPromise w;
             promises := promises w; hooks := hooks w ++ [h'];
             requests := requests w |}
      | None =>
          (* Start new fetch *)
          let p := length (promises w) in
          let h' := {| settings := settings h; isLoading := isLoading h;
                       error := error h; isMounted := isMounted h;
                       awaiting := Started p |} in
          {| settingsCache := settingsCache w; fetchPromise := Some p;
             promises := promises w ++ [Pending]; hooks := hooks w ++ [h'];
             requests := S (requests w) |}
      end
  end.

Definition mount (w : World) : World := fetchSettings (render w) w.

(** The network answers: the async function of promise [p] runs to its end
    and settles the promise. *)
Definition respond (p : nat) (o : FetchOutcome) (w : World) : World :=
  match promises w !! p with
  | Some Pending =>
      {| settingsCache := settingsCache w; fetchPromise := fetchPromise w;
         promises := <[p := fetch_body o]> (promises w); hooks := hooks w;
         requests := requests w |}
  | _ => w
  end.

(** Lines 88-108: the hook that started the fetch resumes. *)
Definition resume_started (h : Hook) (st : PromiseState) : Hook :=
  match st with
  | Fulfilled result =>
      if isMounted h
      then {| settings := result; isLoading := false; error := None;
              isMounted := true; awaiting := Returned |}
      else {| settings := settings h; isLoading := isLoading h; error := error h;
              isMounted := false; awaiting := Returned |}
  | Rejected err =>
      if isMounted h
      then {| settings := DEFAULT_SITE_SETTINGS; isLoading := false;
              error := Some (as_error err);
              isMounted := true; awaiting := Returned |}
      else {| settings := settings h; isLoading := isLoading h; error := error h;
              isMounted := false; awaiting := Returned |}
  | Pending => h
  end.

(** Lines 45-57: a hook that joined a fetch in progress resumes. *)
Definition resume_joined (h : Hook) (st : PromiseState) : Hook :=
  match st with
  | Fulfilled result =>
      if isMounted h
      then {| settings := result; isLoading := false; error := error h;
              isMounted := true; awaiting := Returned |}
      else {| settings := settings h; isLoading := isLoading h; error := error h;
              isMounted := false; awaiting := Returned |}
  | Rejected err =>
      if isMounted h
      then {| settings := settings h; isLoading := false;
              error := Some (as_error err);
              isMounted := true; awaiting := Returned |}
      else {| settings := settings h; isLoading := isLoading h; error := error h;
              isMounted := false; awaiting := Returned |}
  | Pending => h
  end.

(** The continuation of hook [i] runs, if the promise it awaits is settled. *)
Definition deliver (i : nat) (w : World) : World :=
  match hooks w !! i with
  | None => w
  | Some h =>
      match awaiting h with
      | Returned => w
      | Joined p =>
          match promises w !! p with
          | Some Pending | None => w
          | Some st => set_hook i (resume_joined h st) w
          end
      | Started p =>
          match promises w !! p with
          | Some Pending | None => w
          | Some st =>
              {| settingsCache :=
                   match st with
                   | Fulfilled result => Some result   (* settingsCache = result *)
                   | _ => settingsCache w
                   end;
                 fetchPromise := None;                  (* finally *)
                 promises := promises w;
                 hooks := <[i := resume_started h st]> (hooks w);
                 requests := requests w |}
          end
      end
  end.

(** The cleanup returned by the effect: [isMounted = false]. *)
Definition unmount (i : nat) (w : World) : World :=
  match hooks w !! i with
  | None => w
  | Some h =>
      set_hook i {| settings := settings h; isLoading := isLoading h;
                    error := error h; isMounted := false;
                    awaiting := awaiting h |} w
  end.

Definition clearSiteSettingsCache (w : World) : World := {|
  settingsCache := None;
  fetchPromise := None;
  promises := promises w;
  hooks := hooks w;
  requests := requests w
|}.

Definition step (w : World) (e : Event) : World :=
  match e with
  | Mount => mount w
  | Respond p o => respond p o w
  | Deliver i => deliver i w
  | Unmount i => unmount i w
  | ClearSiteSettingsCache => clearSiteSettingsCache w
  end.

Definition run (es : list Event) (w : World) : World := foldl step w es.

(** *** Vocabulary for the statements about the cache *)

Local Open Scope list_scope.

(** A hook rendered on an empty cache that started the fetch of promise [p],
    one that joined it, and a mounted hook after the promise settled as [st]. *)
Definition starter (p : nat) : Hook := {|
  settings := DEFAULT_SITE_SETTINGS; isLoading := true; error := None;
  isMounted := true; awaiting := Started p
|}.

Definition joiner (p : nat) : Hook := {|
  settings := DEFAULT_SITE_SETTINGS; isLoading := true; error := None;
  isMounted := true; awaiting := Joined p
|}.

Definition resolved (st : PromiseState) : Hook := {|
  settings := match st with Fulfilled result => result | _ => DEFAULT_SITE_SETTINGS end;
  isLoading := false;
  error := match st with Rejected err => Some (as_error err) | _ => None end;
  isMounted := true;
  awaiting := Returned
|}.

(** What the starter leaves in the cached-value slot. *)
Definition cached (st : PromiseState) : option SiteSettings :=
  match st with
  | Fulfilled result => Some result
  | _ => None
  end.

(** The [i]-th of the hooks mounted together: the first starts the fetch. *)
Definition waiter (p i : nat) : Hook :=
  match i with
  | O => starter p
  | S _ => joiner p
  end.

(** The events of [K] hooks mounting one after the other. *)
Definition mounts (K : nat) : list Event := replicate K Mount.

(** The continuations of the hooks named in [order] run, in that order. *)
Definition deliveries (order : list nat) : list Event := Deliver <$> order.

(** [S K] hooks mount on an empty cache with no fetch in flight, the network
    answers [o], and the continuations of the new hooks run in the order
    [order], which names each of them at least once. *)
Definition window (w0 : World) (K : nat) (o : FetchOutcome) (order : list nat)
  : list Event :=
  mounts (S K) ++ [Respond (length (promises w0)) o] ++ deliveries order.

Definition covers (w0 : World) (K : nat) (order : list nat) : Prop :=
  (forall j, j ∈ order -> length (hooks w0) <= j < length (hooks w0) + S K) /\
  (forall i, i < S K -> length (hooks w0) + i ∈ order).

(** The error of a fetch that fails in transport: [fetch] itself rejects, or
    the response status is outside 200-299. *)
Definition transport_error (o : FetchOutcome) : option Thrown :=
  match o with
  | FetchRejects err => Some err
  | FetchResponse status _ =>
      if response_ok status then None else Some (ThrowError (HttpError status))
  end.

(** The error of a response body the async function cannot use: the body is
    not JSON, or it is an array whose first element is [null]. *)
Definition body_error (body : Body) : option Thrown :=
  match body with
  | BodyRejects err => Some err
  | BodyJson (JArray (None :: _)) =>
      Some (ThrowError (NativeError "TypeError" "Cannot read properties of null"))
  | _ => None
  end.

Definition is_clear (e : Event) : bool :=
  match e with
  | ClearSiteSettingsCache => true
  | _ => false
  end.

(** The worlds between the settling of the promise of [S K] hooks that mounted
    together on [w0] and the end of their continuations: the old hooks are
    as they were, each new hook is still waiting or has resolved, and the
    module slots tell whether the starter has run. *)
Record resuming (w0 : World) (K : nat) (st : PromiseState) (w : World) : Prop := {
  resuming_requests : requests w = S (requests w0);
  resuming_promises : promises w = promises w0 ++ [st];
  resuming_length : length (hooks w) = length (hooks w0) + S K;
  resuming_old : forall j, j < length (hooks w0) -> hooks w !! j = hooks w0 !! j;
  resuming_new : forall i, i < S K ->
    hooks w !! (length (hooks w0) + i) = Some (waiter (length (promises w0)) i) \/
    hooks w !! (length (hooks w0) + i) = Some (resolved st);
  resuming_slots :
    (hooks w !! length (hooks w0) = Some (starter (length (promises w0))) /\
     settingsCache w = None /\ fetchPromise w = Some (length (promises w0))) \/
    (hooks w !! length (hooks w0) = Some (resolved st) /\
     settingsCache w = cached st /\ fetchPromise w = None)
}.

(** *** Vocabulary for the invariants of the cache *)

(** [useGlobalPhone()]: the phone fields of the settings of the hook it
    mounts, and its loading flag. *)
Record GlobalPhone := {
  global_phoneNumber : string;
  global_phoneDisplay : string;
  global_phoneAvailability : string;
  global_applyGlobally : bool;
  global_isLoading : bool
}.

Definition useGlobalPhone (h : Hook) : GlobalPhone := {|
  global_phoneNumber := phoneNumber (settings h);
  global_phoneDisplay := phoneDisplay (settings h);
  global_phoneAvailability := phoneAvailability (settings h);
  global_applyGlobally := applyPhoneGlobally (settings h);
  global_isLoading := isLoading h
|}.

(** No event of the list is the invalidation. *)
Definition no_clear (es : list Event) : bool :=
  forallb (fun e => negb (is_clear e)) es.

(** The hook after its effect cleanup. *)
Definition unmounted (h : Hook) : Hook := {|
  settings := settings h; isLoading := isLoading h; error := error h;
  isMounted := false; awaiting := awaiting h
|}.

(** The hook a [Mount] adds to the world [w]. *)
Definition mounted (w : World) : Hook :=
  match settingsCache w with
  | Some s => {| settings := s; isLoading := false; error := None;
                 isMounted := true; awaiting := Returned |}
  | None =>
      match fetchPromise w with
      | Some p => joiner p
      | None => starter (length (promises w))
      end
  end.

(** How one event can change a hook that is already there. *)
Inductive evolves (w : World) (h : Hook) : Hook -> Prop :=
| evolves_same : evolves w h h
| evolves_started p st :
    awaiting h = Started p -> promises w !! p = Some st -> st <> Pending ->
    evolves w h (resume_started h st)
| evolves_joined p st :
    awaiting h = Joined p -> promises w !! p = Some st -> st <> Pending ->
    evolves w h (resume_joined h st)
| evolves_unmounted : evolves w h (unmounted h).

(** The slots and the promises agree on the fetch in flight. *)
Record in_flight (w : World) : Prop := {
  in_flight_pending : forall p,
    promises w !! p = Some Pending -> fetchPromise w = Some p;
  in_flight_started : forall i h p,
    hooks w !! i = Some h -> awaiting h = Started p -> fetchPromise w = Some p;
  in_flight_starter : forall i j h h' p q,
    hooks w !! i = Some h -> awaiting h = Started p ->
    hooks w !! j = Some h' -> awaiting h' = Started q -> i = j;
  in_flight_requests : requests w = length (promises w)
}.

(** What a hook shows agrees with where its [fetchSettings] stands. *)
Record consistent (h : Hook) : Prop := {
  consistent_waiting : awaiting h <> Returned ->
    isLoading h = true /\ settings h = DEFAULT_SITE_SETTINGS /\ error h = None;
  consistent_returned : awaiting h = Returned -> isMounted h = true ->
    isLoading h = false;
  consistent_error : error h <> None -> settings h = DEFAULT_SITE_SETTINGS
}.

(** Every settings value in the world has the property [P]. *)
Record settings_all (P : SiteSettings -> Prop) (w : World) : Prop := {
  settings_all_cache : forall s, settingsCache w = Some s -> P s;
  settings_all_promises : forall p s, promises w !! p = Some (Fulfilled s) -> P s;
  settings_all_hooks : forall i h, hooks w !! i = Some h -> P (settings h)
}.

(** The cached value is the result of a fetch that succeeded. *)
Definition sourced (w : World) : Prop :=
  forall s, settingsCache w = Some s ->
            exists p, promises w !! p = Some (Fulfilled s).

End Hook.

End UseSiteSettings.

(* ===================================================================== *)
(** ** client/components/admin/PageContentEditor.tsx *)
(* ===================================================================== *)

Module PageContentEditor.

(** *** Objects, arrays and the store they live in *)

(** A JavaScript value: a primitive, or a reference to an object or an array
    in the store. *)
Inductive Val :=
| VUndefined
| VNull
| VBool (b : bool)
| VNumber (n : Z)
| VString (s : string)
| VRef (a : nat).

Inductive Obj :=
| Object (props : list (string * Val))   (* own properties, in insertion order *)
| Array (elems : list Val).

(** The store (an object is named by its position) and the arguments
    [onChange] has been called with, oldest first. *)
Record State := {
  heap : list Obj;
  calls : list Val
}.

(** A computation on the store.  [None]: the computation does not complete
    (a [TypeError] is thrown). *)
Definition Run (A : Type) : Type := State -> option (A * State).

Definition ret {A : Type} (a : A) : Run A := fun st => Some (a, st).

Definition bind {A B : Type} (c : Run A) (k : A -> Run B) : Run B :=
  fun st =>
    match c st with
    | Some (a, st') => k a st'
    | None => None
    end.

Notation "'let!' x ':=' c 'in' k" := (bind c (fun x => k))
  (at level 10, x name, c at level 100, k at level 200, only parsing).

Fixpoint prop (k : string) (props : list (string * Val)) : option Val :=
  match props with
  | [] => None
  | (k', x) :: rest => if String.eqb k k' then Some x else prop k rest
  end.

(** Reading a property that is not there gives [undefined]. *)
Definition lookup_prop (k : string) (props : list (string * Val)) : Val :=
  match prop k props with
  | Some x => x
  | None => VUndefined
  end.

(** Writing a property keeps the position of a key that exists and adds a
    new key at the end. *)
Fixpoint set_prop (k : string) (x : Val) (props : list (string * Val))
  : list (string * Val) :=
  match props with
  | [] => [(k, x)]
  | (k', y) :: rest =>
      if String.eqb k k' then (k, x) :: rest else (k', y) :: set_prop k x rest
  end.

Fixpoint chars (s : string) : list Val :=
  match s with
  | EmptyString => []
  | String c rest => VString (String c EmptyString) :: chars rest
  end.

Definition indexed (l : list Val) : list (string * Val) :=
  imap (fun i x => (pretty i, x)) l.

(** The own enumerable properties [{...v}] copies. *)
Definition own_props (h : list Obj) (v : Val) : list (string * Val) :=
  match v with
  | VRef a =>
      match h !! a with
      | Some (Object props) => props
      | Some (Array elems) => indexed elems
      | None => []
      end
  | VString s => indexed (chars s)
  | _ => []
  end.

(** [v.k], for the property names the editors read (none of them is numeric
    or the name of a built-in property). *)
Definition get (v : Val) (k : string) : Run Val :=
  fun st =>
    match v with
    | VUndefined | VNull => None
    | VRef a =>
        match heap st !! a with
        | Some (Object props) => Some (lookup_prop k props, st)
        | Some (Array _) => Some (VUndefined, st)
        | None => None
        end
    | _ => Some (VUndefined, st)
    end.

Definition alloc (o : Obj) : Run Val :=
  fun st =>
    Some (VRef (length (heap st)), {| heap := heap st ++ [o]; calls := calls st |}).

(** [{...v}]: a new object with the own properties of [v]. *)
Definition spread (v : Val) : Run Val :=
  fun st => alloc (Object (own_props (heap st) v)) st.

(** The property [k: x] of an object literal is defined on the object under
    construction. *)
Definition define_prop (o : Val) (k : string) (x : Val) : Run unit :=
  fun st =>
    match o with
    | VRef a =>
        match heap st !! a with
        | Some (Object props) =>
            Some (tt, {| heap := <[a := Object (set_prop k x props)]> (heap st);
                         calls := calls st |})
        | _ => None
        end
    | _ => None
    end.

(** The elements [[...items]] iterates over. *)
Definition iterate (items : Val) : Run (list Val) :=
  fun st =>
    match items with
    | VRef a =>
        match heap st !! a with
        | Some (Array elems) => Some (elems, st)
        | _ => None
        end
    | VString s => Some (chars s, st)
    | _ => None
    end.

(** [elems[index] = x] on a list of elements: an index past the end
    lengthens the array, the skipped positions reading [undefined]. *)
Definition assign_index (index : nat) (x : Val) (elems : list Val) : list Val :=
  if Nat.ltb index (length elems) then <[index := x]> elems
  else elems ++ replicate (index - length elems) VUndefined ++ [x].

(** [arr[index] = x] *)
Definition store_index (arr : Val) (index : nat) (x : Val) : Run unit :=
  fun st =>
    match arr with
    | VRef a =>
        match heap st !! a with
        | Some (Array elems) =>
            Some (tt, {| heap := <[a := Array (assign_index index x elems)]> (heap st);
                         calls := calls st |})
        | _ => None
        end
    | _ => None
    end.

(** The item [items.map] hands to [renderItem] at position [index]. *)
Definition item_at (items : Val) (index : nat) : Run Val :=
  fun st =>
    match items with
    | VRef a =>
        match heap st !! a with
        | Some (Array elems) =>
            match elems !! index with
            | Some item => Some (item, st)
            | None => None
            end
        | _ => None
        end
    | _ => None
    end.

(** The parent's callback: the call is recorded. *)
Definition onChange (doc : Val) : Run unit :=
  fun st => Some (tt, {| heap := heap st; calls := calls st ++ [doc] |}).

(** *** [String.prototype.split] and [filter(Boolean)] *)

(** The line feed character, written [\n] in the source. *)
Definition LF : string := String (Ascii.ascii_of_nat 10) EmptyString.

(** Scanning [s] left to right; [skip] characters of a separator just matched
    are still to be passed over, [cur] is the segment collected so far. *)
Fixpoint split_from (sep : string) (skip : nat) (cur s : string) : list string :=
  match s with
  | EmptyString => [cur]
  | String c rest =>
      match skip with
      | S n => split_from sep n cur rest
      | O =>
          if String.prefix sep s
          then cur :: split_from sep (String.length sep - 1) EmptyString rest
          else split_from sep 0 (cur ++ String c EmptyString) rest
      end
  end.

(** [s.split(sep)] for a separator that is not empty. *)
Definition split (sep s : string) : list string := split_from sep 0 EmptyString s.

(** [s.split(sep).filter(Boolean)]: both arrays are allocated. *)
Definition split_filter (sep s : string) : Run Val :=
  let! _ := alloc (Array (map VString (split sep s))) in
  alloc (Array (map VString (filter (fun x => truthy x = true) (split sep s)))).

(** *** [ArrayEditor] *)

(** [onChange([...items, newItem()])] *)
Definition addItem (items : Val) (newItem : Run Val) (onItems : Val -> Run unit)
  : Run unit :=
  let! elems := iterate items in
  let! item := newItem in
  let! newItems := alloc (Array (elems ++ [item])) in
  onItems newItems.

(** [onChange(items.filter((_, i) => i !== index))] *)
Definition removeItem (items : Val) (onItems : Val -> Run unit) (index : nat)
  : Run unit :=
  fun st =>
    match items with
    | VRef a =>
        match heap st !! a with
        | Some (Array elems) =>
            (let! newItems := alloc (Array (delete index elems)) in
             onItems newItems) st
        | _ => None
        end
    | _ => None
    end.

(** [const newItems = [...items]; newItems[index] = item; onChange(newItems)] *)
Definition updateItem (items : Val) (onItems : Val -> Run unit) (index : nat)
  (item : Val) : Run unit :=
  let! elems := iterate items in
  let! newItems := alloc (Array elems) in
  let! _ := store_index newItems index item in
  onItems newItems.

(** *** The page editors *)

(** [{ ...v, [k]: x }], with [x] computed after the spread. *)
Definition spread_with (v : Val) (k : string) (x : Run Val) : Run Val :=
  let! o := spread v in
  let! value := x in
  let! _ := define_prop o k value in
  ret o.

(** [update(key, value)] of each of the four editors:
    [onChange({ ...content, [key]: value })], [value] being computed before
    the call. *)
Definition update (content : Val) (key : string) (value : Val) : Run unit :=
  let! doc := spread_with content key (ret value) in
  onChange doc.

(** The change handlers the editors install, by the way they are written.
    An item handler belongs to the item rendered at some [index]. *)
Inductive Handler :=
| Field (key : string)
    (* onChange({ ...content, key: v }) *)
| SectionField (section field : string)
    (* update(section, { ...content.section, field: v }) *)
| SectionLines (section field sep : string)
    (* update(section, { ...content.section, field: v.split(sep).filter(Boolean) }) *)
| ItemField (key field : string)
    (* <ArrayEditor items={content.key} onChange={(items) => update(key, items)}
         ... updateItem({ ...item, field: v }) *)
| SectionItemField (section key field : string).
    (* <ArrayEditor items={content.section.key}
         onChange={(items) => update(section, { ...content.section, key: items })}
         ... updateItem({ ...item, field: v }) *)

Definition handle (content : Val) (hd : Handler) (index : nat) (v : string)
  : Run unit :=
  match hd with
  | Field key =>
      let! doc := spread_with content key (ret (VString v)) in
      onChange doc
  | SectionField section field =>
      let! value :=
        (let! sec := get content section in
         spread_with sec field (ret (VString v))) in
      update content section value
  | SectionLines section field sep =>
      let! value :=
        (let! sec := get content section in
         spread_with sec field (split_filter sep v)) in
      update content section value
  | ItemField key field =>
      let! items := get content key in
      let! item := item_at items index in
      let! updated := spread_with item field (ret (VString v)) in
      updateItem items (fun newItems => update content key newItems) index updated
  | SectionItemField section key field =>
      let! sec := get content section in
      let! items := get sec key in
      let! item := item_at items index in
      let! updated := spread_with item field (ret (VString v)) in
      updateItem items
        (fun newItems =>
           let! value :=
             (let! sec' := get content section in
              spread_with sec' key (ret newItems)) in
           update content section value)
        index updated
  end.

Inductive Editor :=
| HomePageEditor
| AboutPageEditor
| ContactPageEditor
| PracticeAreasPageEditor
| JsonEditor.

Definition PARAGRAPHS : string := LF ++ LF.

(** The change handlers of each editor, in the order of the source. *)
Definition handlers (e : Editor) : list Handler :=
  match e with
  | HomePageEditor => [
      SectionField "hero" "title";
      SectionField "hero" "subtitle";
      SectionField "hero" "backgroundImage";
      SectionField "hero" "ctaText";
      SectionField "hero" "ctaUrl";
      SectionField "hero" "attorneyImage";
      SectionField "hero" "badgeImage";
      ItemField "features" "icon";
      ItemField "features" "title";
      ItemField "features" "description";
      SectionField "mission" "heading";
      SectionLines "mission" "paragraphs" PARAGRAPHS;
      SectionField "mission" "image";
      SectionField "mission" "ctaPrimaryText";
      SectionField "mission" "ctaPrimaryUrl";
      SectionField "mission" "ctaSecondaryText";
      SectionField "mission" "ctaSecondaryUrl";
      SectionField "attorney" "name";
      SectionField "attorney" "title";
      SectionField "attorney" "photo";
      SectionField "attorney" "bio";
      SectionLines "attorney" "bullets" LF;
      SectionField "attorney" "phone";
      SectionField "speakWithUs" "heading";
      SectionField "speakWithUs" "description";
      SectionField "speakWithUs" "image";
      SectionField "speakWithUs" "ctaText";
      SectionField "speakWithUs" "ctaUrl";
      SectionField "clientStories" "heading";
      SectionField "clientStories" "subtitle";
      SectionItemField "clientStories" "videos" "embedUrl";
      SectionItemField "clientStories" "videos" "thumbnail";
      SectionField "contactForm" "heading";
      SectionField "contactForm" "image";
      SectionField "contactForm" "badgeImage";
      SectionField "services" "heading";
      SectionField "services" "description";
      SectionItemField "services" "items" "title";
      SectionItemField "services" "items" "icon";
      SectionField "services" "closingText"
    ]
  | AboutPageEditor => [
      SectionField "hero" "title";
      SectionField "hero" "backgroundImage";
      SectionLines "story" "paragraphs" PARAGRAPHS;
      SectionField "story" "image";
      SectionField "story" "ctaPrimaryText";
      SectionField "story" "ctaPrimaryUrl";
      SectionField "attorney" "name";
      SectionField "attorney" "title";
      SectionField "attorney" "photo";
      SectionLines "attorney" "bio" PARAGRAPHS;
      SectionField "attorney" "phone";
      ItemField "approach" "icon";
      ItemField "approach" "title";
      ItemField "approach" "description";
      ItemField "testimonials" "quote";
      ItemField "testimonials" "name";
      ItemField "testimonials" "initials";
      ItemField "testimonials" "caseType";
      SectionField "cta" "heading";
      SectionField "cta" "description";
      SectionField "cta" "phone"
    ]
  | ContactPageEditor => [
      SectionField "hero" "title";
      SectionField "hero" "subtitle";
      SectionField "hero" "backgroundImage";
      SectionField "info" "phone";
      SectionField "info" "phoneNote";
      SectionLines "info" "address" LF;
      SectionField "info" "addressLabel";
      SectionField "form" "heading";
      SectionField "form" "image";
      SectionField "form" "badgeImage";
      ItemField "officeHours" "label";
      ItemField "officeHours" "hours";
      Field "hoursNote";
      Field "mapEmbedUrl";
      SectionField "cta" "heading";
      SectionField "cta" "description";
      SectionField "cta" "phone"
    ]
  | PracticeAreasPageEditor => [
      SectionField "hero" "title";
      SectionField "hero" "backgroundImage";
      Field "intro";
      ItemField "areas" "name";
      ItemField "areas" "icon";
      ItemField "areas" "description";
      SectionField "options" "heading";
      SectionField "options" "text";
      SectionField "options" "image";
      SectionField "options" "ctaPrimaryText";
      SectionField "options" "ctaPrimaryUrl";
      SectionField "cta" "heading";
      SectionField "cta" "description";
      SectionField "cta" "phone"
    ]
  | JsonEditor => []
  end.

(** The editor [PageContentEditor] shows for a page key ([pageKey] is a
    string, so [urlPath] is [pageKey]). *)
Definition select (pageKey : string) : Editor :=
  let urlPath := pageKey in
  if String.eqb urlPath "/" || String.eqb urlPath "/home" then HomePageEditor
  else if String.eqb urlPath "/about" then AboutPageEditor
  else if String.eqb urlPath "/contact" then ContactPageEditor
  else if String.eqb urlPath "/practice-areas" then PracticeAreasPageEditor
  else JsonEditor.

Section Fallback.

(** [JSON.parse] of the platform: [None] when it throws a [SyntaxError],
    otherwise the parsed value and the store with the objects it built. *)
Variable JSON_parse : string -> list Obj -> option (Val * list Obj).

(** The [onChange] of the raw JSON textarea:
    [try { onChange(JSON.parse(e.target.value)); } catch { }] *)
Definition json_onChange (text : string) : Run unit :=
  fun st =>
    match JSON_parse text (heap st) with
    | Some (doc, h') =>
        match onChange doc {| heap := h'; calls := calls st |} with
        | Some r => Some r
        | None => Some (tt, {| heap := h'; calls := calls st |})
        end
    | None => Some (tt, st)   (* Invalid JSON, ignore *)
    end.

(** A change event with text [v] on the control [hd] (at item [index]) of
    the editor shown for [pageKey]; the raw JSON editor has its one
    textarea. *)
Definition change (pageKey : string) (content : Val) (hd : Handler)
  (index : nat) (v : string) : Run unit :=
  match select pageKey with
  | JsonEditor => json_onChange v
  | _ => handle content hd index v
  end.

End Fallback.

(** *** Vocabulary for the statements about the editors *)

Local Open Scope list_scope.

(** A step from a document into one of its parts. *)
Inductive Step :=
| Key (k : string)
| Index (i : nat).

(** The part of the document a handler edits. *)
Definition path (hd : Handler) (index : nat) : list Step :=
  match hd with
  | Field key => [Key key]
  | SectionField section field => [Key section; Key field]
  | SectionLines section field _ => [Key section; Key field]
  | ItemField key field => [Key key; Index index; Key field]
  | SectionItemField section key field => [Key section; Key key; Index index; Key field]
  end.

(** The control was rendered: every container on the way to the edited part
    is there, an object for a key and an array with an item for an index. *)
Fixpoint rendered (h : list Obj) (steps : list Step) (d : Val) : bool :=
  match steps with
  | [] => true
  | Key k :: rest =>
      match d with
      | VRef a =>
          match h !! a with
          | Some (Object props) => rendered h rest (lookup_prop k props)
          | _ => false
          end
      | _ => false
      end
  | Index i :: rest =>
      match d with
      | VRef a =>
          match h !! a with
          | Some (Array elems) =>
              match elems !! i with
              | Some item => rendered h rest item
              | None => false
              end
          | _ => false
          end
      | _ => false
      end
  end.

(** [d'] in store [h'] is [d] in store [h] with the part at [steps] replaced
    by [x]: along the way every object and array is a new one that agrees
    with the old one on all other keys and positions. *)
Fixpoint edited (h h' : list Obj) (steps : list Step) (x d d' : Val) : Prop :=
  match steps with
  | [] => d' = x
  | Key k :: rest =>
      exists a a' props props',
        d = VRef a /\ d' = VRef a' /\ length h <= a' /\
        h !! a = Some (Object props) /\ h' !! a' = Some (Object props') /\
        (forall k', k' <> k -> prop k' props' = prop k' props) /\
        is_Some (prop k props') /\
        edited h h' rest x (lookup_prop k props) (lookup_prop k props')
  | Index i :: rest =>
      exists a a' elems elems' item item',
        d = VRef a /\ d' = VRef a' /\ length h <= a' /\
        h !! a = Some (Array elems) /\ h' !! a' = Some (Array elems') /\
        length elems' = length elems /\
        (forall j, j <> i -> elems' !! j = elems !! j) /\
        elems !! i = Some item /\ elems' !! i = Some item' /\
        edited h h' rest x item item'
  end.

(** The value a handler stores for the text [v]: the text itself, or for a
    textarea of lines a new array of its non-empty segments. *)
Definition stored_value (h h' : list Obj) (hd : Handler) (v : string) (x : Val) : Prop :=
  match hd with
  | SectionLines _ _ sep =>
      exists a, x = VRef a /\ length h <= a /\
        h' !! a = Some (Array (VString <$> filter (fun s => truthy s = true) (split sep v)))
  | _ => x = VString v
  end.

(** What a change handler does: it completes, calls [onChange] once with a
    new document, leaves every object of the store as it was, and the new
    document is the old one edited at the handler's path. *)
Definition handled (st : State) (content : Val) (hd : Handler) (index : nat)
  (v : string) (r : option (unit * State)) : Prop :=
  exists doc st',
    r = Some (tt, st') /\
    calls st' = calls st ++ [doc] /\
    (exists ext, heap st' = heap st ++ ext) /\
    exists x, stored_value (heap st) (heap st') hd v x /\
              edited (heap st) (heap st') (path hd index) x content doc.

(** *** Vocabulary for the statements about lines and lists *)

(** [l.join(sep)] for an array of strings. *)
Fixpoint join (sep : string) (l : list string) : string :=
  match l with
  | [] => EmptyString
  | [x] => x
  | x :: rest => (x ++ sep ++ join sep rest)%string
  end.

(** The strings of an array all of whose elements are strings. *)
Fixpoint strings_of (elems : list Val) : option (list string) :=
  match elems with
  | [] => Some []
  | VString s :: rest =>
      match strings_of rest with
      | Some l => Some (s :: l)
      | None => None
      end
  | _ :: _ => None
  end.

(** [content.section.field], an array of strings. *)
Definition lines_of (content : Val) (section field : string) : Run (list string) :=
  let! sec := get content section in
  let! lines := get sec field in
  fun st =>
    match lines with
    | VRef a =>
        match heap st !! a with
        | Some (Array elems) =>
            match strings_of elems with
            | Some l => Some (l, st)
            | None => None
            end
        | _ => None
        end
    | _ => None
    end.

(** The [value] of a textarea of lines: [content.section.field.join(sep)]. *)
Definition displayed (content : Val) (section field sep : string) : Run string :=
  let! l := lines_of content section field in
  ret (join sep l).

(** The character occurs in the string. *)
Fixpoint occurs (c : Ascii.ascii) (s : string) : bool :=
  match s with
  | EmptyString => false
  | String c' rest => Ascii.eqb c c' || occurs c rest
  end.

(** A line that is not empty and has no line feed in it. *)
Definition plain (s : string) : bool :=
  truthy s && negb (occurs (Ascii.ascii_of_nat 10) s).

(** [l.filter((_, i) => keep i)], counting positions from [i]. *)
Fixpoint filter_index (keep : nat -> bool) (i : nat) (l : list Val) : list Val :=
  match l with
  | [] => []
  | x :: rest =>
      if keep i then x :: filter_index keep (S i) rest
      else filter_index keep (S i) rest
  end.

End PageContentEditor.

(* ===================================================================== *)
(** * Vocabulary and sample data for the statements *)
(* ===================================================================== *)

Section RowVocabulary.
Import SiteSettingsTypes.

(** The nullable text columns [siteSettingsToRow] writes. *)
Inductive TextColumn :=
| Logo_url | Logo_alt | Phone_number | Phone_display | Phone_availability
| Header_cta_text | Header_cta_url | Address_line1 | Address_line2
| Map_embed_url | Copyright_text | Ga4_measurement_id | Google_ads_id
| Google_ads_conversion_label | Head_scripts | Footer_scripts | Site_name.

Definition text_columns : list TextColumn :=
  [Logo_url; Logo_alt; Phone_number; Phone_display; Phone_availability;
   Header_cta_text; Header_cta_url; Address_line1; Address_line2;
   Map_embed_url; Copyright_text; Ga4_measurement_id; Google_ads_id;
   Google_ads_conversion_label; Head_scripts; Footer_scripts; Site_name].

(** The column as stored in a row, as written to a partial row, and the
    settings field it is written from. *)
Definition stored (c : TextColumn) (row : SiteSettingsRow) : option string :=
  match c with
  | Logo_url => logo_url row
  | Logo_alt => logo_alt row
  | Phone_number => phone_number row
  | Phone_display => phone_display row
  | Phone_availability => phone_availability row
  | Header_cta_text => header_cta_text row
  | Header_cta_url => header_cta_url row
  | Address_line1 => address_line1 row
  | Address_line2 => address_line2 row
  | Map_embed_url => map_embed_url row
  | Copyright_text => copyright_text row
  | Ga4_measurement_id => ga4_measurement_id row
  | Google_ads_id => google_ads_id row
  | Google_ads_conversion_label => google_ads_conversion_label row
  | Head_scripts => head_scripts row
  | Footer_scripts => footer_scripts row
  | Site_name => site_name row
  end.

Definition written (c : TextColumn) (p : PartialRow) : Key (option string) :=
  match c with
  | Logo_url => p_logo_url p
  | Logo_alt => p_logo_alt p
  | Phone_number => p_phone_number p
  | Phone_display => p_phone_display p
  | Phone_availability => p_phone_availability p
  | Header_cta_text => p_header_cta_text p
  | Header_cta_url => p_header_cta_url p
  | Address_line1 => p_address_line1 p
  | Address_line2 => p_address_line2 p
  | Map_embed_url => p_map_embed_url p
  | Copyright_text => p_copyright_text p
  | Ga4_measurement_id => p_ga4_measurement_id p
  | Google_ads_id => p_google_ads_id p
  | Google_ads_conversion_label => p_google_ads_conversion_label p
  | Head_scripts => p_head_scripts p
  | Footer_scripts => p_footer_scripts p
  | Site_name => p_site_name p
  end.

Definition text_of (c : TextColumn) (s : SiteSettings) : string :=
  match c with
  | Logo_url => logoUrl s
  | Logo_alt => logoAlt s
  | Phone_number => phoneNumber s
  | Phone_display => phoneDisplay s
  | Phone_availability => phoneAvailability s
  | Header_cta_text => headerCtaText s
  | Header_cta_url => headerCtaUrl s
  | Address_line1 => addressLine1 s
  | Address_line2 => addressLine2 s
  | Map_embed_url => mapEmbedUrl s
  | Copyright_text => copyrightText s
  | Ga4_measurement_id => ga4MeasurementId s
  | Google_ads_id => googleAdsId s
  | Google_ads_conversion_label => googleAdsConversionLabel s
  | Head_scripts => headScripts s
  | Footer_scripts => footerScripts s
  | Site_name => siteName s
  end.

(** The five columns written with [|| null]. *)
Definition cleared_when_empty (c : TextColumn) : bool :=
  match c with
  | Ga4_measurement_id | Google_ads_id | Google_ads_conversion_label
  | Head_scripts | Footer_scripts => true
  | _ => false
  end.

(** The key is present and holds the value the row has. *)
Definition holds {A : Type} (v : option A) (k : Key A) : Prop :=
  exists a, v = Some a /\ k = Present a.

(** A partial row carries the values of a row: every key it has holds what
    the row holds under that key. *)
Definition carries (row : SiteSettingsRow) (p : PartialRow) : Prop :=
  (forall c, written c p = Present (stored c row)) /\
  holds (apply_phone_globally row) (p_apply_phone_globally p) /\
  holds (site_noindex row) (p_site_noindex p) /\
  holds (navigation_items row) (p_navigation_items p) /\
  holds (footer_about_links row) (p_footer_about_links p) /\
  holds (footer_practice_links row) (p_footer_practice_links p) /\
  holds (social_links row) (p_social_links p).

Definition is_some {A : Type} (v : option A) : bool :=
  match v with Some _ => true | None => false end.

Definition has_items {A : Type} (v : option (list A)) : bool :=
  match v with Some (_ :: _) => true | _ => false end.

Definition has_text (v : option string) : bool :=
  match v with Some s => truthy s | None => false end.

(** Every field is non-null and every sequence is non-empty. *)
Definition populated (row : SiteSettingsRow) : bool :=
  forallb (fun c => is_some (stored c row)) text_columns
  && is_some (updated_by row)
  && is_some (apply_phone_globally row) && is_some (site_noindex row)
  && has_items (navigation_items row) && has_items (footer_about_links row)
  && has_items (footer_practice_links row) && has_items (social_links row).

(** As [populated], and every text column holds a non-empty string. *)
Definition populated_with_text (row : SiteSettingsRow) : bool :=
  forallb (fun c => has_text (stored c row)) text_columns
  && is_some (apply_phone_globally row) && is_some (site_noindex row)
  && has_items (navigation_items row) && has_items (footer_about_links row)
  && has_items (footer_practice_links row) && has_items (social_links row).

(** A row with every field set; its site name is the empty string. *)
Definition unnamed_row : SiteSettingsRow := {|
  id := "1";
  settings_key := "global";
  logo_url := Some "/logo.png";
  logo_alt := Some "Logo";
  phone_number := Some "5550100";
  phone_display := Some "555-0100";
  phone_availability := Some "Weekdays";
  apply_phone_globally := Some false;
  header_cta_text := Some "CALL";
  header_cta_url := Some "/call";
  navigation_items :=
    Some [{| nav_label := "Home"; nav_href := "/"; nav_order := Some 1%Z;
             nav_openInNewTab := Some false |}];
  footer_about_links := Some [{| fl_label := "About"; fl_href := Some "/about" |}];
  footer_practice_links := Some [{| fl_label := "Areas"; fl_href := Some "/areas" |}];
  address_line1 := Some "1 Main Street";
  address_line2 := Some "Springfield";
  map_embed_url := Some "https://maps.example/embed";
  social_links :=
    Some [{| platform := linkedin; url := "https://linkedin.com"; enabled := true |}];
  copyright_text := Some "All rights reserved";
  site_noindex := Some true;
  ga4_measurement_id := Some "G-1";
  google_ads_id := Some "AW-1";
  google_ads_conversion_label := Some "label";
  head_scripts := Some "<script></script>";
  footer_scripts := Some "<script></script>";
  site_name := Some "";
  updated_at := "2026-01-01T00:00:00Z";
  updated_by := Some "admin"
|}.

(** The same row with a site name. *)
Definition named_row : SiteSettingsRow := {|
  id := id unnamed_row;
  settings_key := settings_key unnamed_row;
  logo_url := logo_url unnamed_row;
  logo_alt := logo_alt unnamed_row;
  phone_number := phone_number unnamed_row;
  phone_display := phone_display unnamed_row;
  phone_availability := phone_availability unnamed_row;
  apply_phone_globally := apply_phone_globally unnamed_row;
  header_cta_text := header_cta_text unnamed_row;
  header_cta_url := header_cta_url unnamed_row;
  navigation_items := navigation_items unnamed_row;
  footer_about_links := footer_about_links unnamed_row;
  footer_practice_links := footer_practice_links unnamed_row;
  address_line1 := address_line1 unnamed_row;
  address_line2 := address_line2 unnamed_row;
  map_embed_url := map_embed_url unnamed_row;
  social_links := social_links unnamed_row;
  copyright_text := copyright_text unnamed_row;
  site_noindex := site_noindex unnamed_row;
  ga4_measurement_id := ga4_measurement_id unnamed_row;
  google_ads_id := google_ads_id unnamed_row;
  google_ads_conversion_label := google_ads_conversion_label unnamed_row;
  head_scripts := head_scripts unnamed_row;
  footer_scripts := footer_scripts unnamed_row;
  site_name := Some "Acme Law";
  updated_at := updated_at unnamed_row;
  updated_by := updated_by unnamed_row
|}.

(** Settings that are the defaults but for an empty logo URL. *)
Definition settings_without_logo : SiteSettings := {|
  siteName := siteName DEFAULT_SITE_SETTINGS;
  logoUrl := "";
  logoAlt := logoAlt DEFAULT_SITE_SETTINGS;
  phoneNumber := phoneNumber DEFAULT_SITE_SETTINGS;
  phoneDisplay := phoneDisplay DEFAULT_SITE_SETTINGS;
  phoneAvailability := phoneAvailability DEFAULT_SITE_SETTINGS;
  applyPhoneGlobally := applyPhoneGlobally DEFAULT_SITE_SETTINGS;
  headerCtaText := headerCtaText DEFAULT_SITE_SETTINGS;
  headerCtaUrl := headerCtaUrl DEFAULT_SITE_SETTINGS;
  navigationItems := navigationItems DEFAULT_SITE_SETTINGS;
  footerAboutLinks := footerAboutLinks DEFAULT_SITE_SETTINGS;
  footerPracticeLinks := footerPracticeLinks DEFAULT_SITE_SETTINGS;
  addressLine1 := addressLine1 DEFAULT_SITE_SETTINGS;
  addressLine2 := addressLine2 DEFAULT_SITE_SETTINGS;
  mapEmbedUrl := mapEmbedUrl DEFAULT_SITE_SETTINGS;
  socialLinks := socialLinks DEFAULT_SITE_SETTINGS;
  copyrightText := copyrightText DEFAULT_SITE_SETTINGS;
  siteNoindex := siteNoindex DEFAULT_SITE_SETTINGS;
  ga4MeasurementId := ga4MeasurementId DEFAULT_SITE_SETTINGS;
  googleAdsId := googleAdsId DEFAULT_SITE_SETTINGS;
  googleAdsConversionLabel := googleAdsConversionLabel DEFAULT_SITE_SETTINGS;
  headScripts := headScripts DEFAULT_SITE_SETTINGS;
  footerScripts := footerScripts DEFAULT_SITE_SETTINGS
|}.

(** The settings can be written to a row and read back as they are: none of
    the twelve text fields that have a default is empty, and none of the four
    sequences is empty. *)
Definition complete (s : SiteSettings) : bool :=
  forallb (fun c => cleared_when_empty c || truthy (text_of c s)) text_columns
  && negb (Nat.eqb (length (navigationItems s)) 0)
  && negb (Nat.eqb (length (footerAboutLinks s)) 0)
  && negb (Nat.eqb (length (footerPracticeLinks s)) 0)
  && negb (Nat.eqb (length (socialLinks s)) 0).

End RowVocabulary.

Section CacheSamples.
Import SiteSettingsTypes UseSiteSettings.
Local Open Scope list_scope.
Local Open Scope Z_scope.

(** The hook with the defaults and the row mapping of [siteSettingsTypes]. *)
Definition run_hook : list Event -> World -> World :=
  UseSiteSettings.run DEFAULT_SITE_SETTINGS rowToSiteSettings.

Definition mount_hook : World -> World :=
  UseSiteSettings.mount DEFAULT_SITE_SETTINGS.

(** Answers of the store: one row, a JSON object in place of the array, a body
    that is not JSON, an empty array, a server error. *)
Definition one_row : FetchOutcome :=
  FetchResponse 200 (BodyJson (JArray [Some named_row])).

Definition error_object : FetchOutcome :=
  FetchResponse 200 (BodyJson (NotAnArray (JObject ["message"]))).

Definition not_json : Body :=
  BodyRejects (ThrowError (NativeError "SyntaxError" "Unexpected token <")).

Definition no_rows : FetchOutcome := FetchResponse 200 (BodyJson (JArray [])).

Definition server_error : FetchOutcome := FetchResponse 500 not_json.

(** A response is malformed when its body is not a JSON array of row objects. *)
Definition malformed (body : Body) : bool :=
  match body with
  | BodyJson (JArray elems) =>
      existsb (fun e => match e with None => true | Some _ => false end) elems
  | _ => true
  end.

(** A world whose cache was populated by a successful fetch. *)
Definition populated_world : World :=
  run_hook (window initial 0 one_row [0%nat]) initial.

End CacheSamples.

Section EditorSamples.
Import PageContentEditor.
Local Open Scope list_scope.

(** A store holding a home page document with a hero, two features and a
    mission section; the document is object 6. *)
Definition home_store : list Obj := [
  Object [("title", VString "Trial Lawyers"); ("subtitle", VString "Since 1990")];
  Array [VString "We fight."];
  Object [("heading", VString "Mission"); ("paragraphs", VRef 1)];
  Object [("icon", VString "attorney"); ("title", VString "Experience")];
  Object [("icon", VString "trial-driven"); ("title", VString "Results")];
  Array [VRef 3; VRef 4];
  Object [("hero", VRef 0); ("features", VRef 5); ("mission", VRef 2)]
].

Definition home_state : State := {| heap := home_store; calls := [] |}.

(** A parser that knows the three literal documents, for the examples:
    on them and on ["{"] it answers as [JSON.parse] does. *)
Definition parse_literal (text : string) (h : list Obj) : option (Val * list Obj) :=
  if String.eqb text "null" then Some (VNull, h)
  else if String.eqb text "true" then Some (VBool true, h)
  else if String.eqb text "false" then Some (VBool false, h)
  else None.

End EditorSamples.

(* ===================================================================== *)
(** * Properties of the row mapping *)
(* ===================================================================== *)

Section RowMapping.
Import SiteSettingsTypes.

Lemma has_text_inv v : has_text v = true -> exists s, v = Some s /\ truthy s = true.
Proof. destruct v as [s|]; simpl; [eauto|discriminate]. Qed.

Lemma is_some_inv {A : Type} (v : option A) : is_some v = true -> exists a, v = Some a.
Proof. destruct v; simpl; [eauto|discriminate]. Qed.

Lemma has_items_inv {A : Type} (v : option (list A)) :
  has_items v = true -> exists x l, v = Some (x :: l).
Proof. destruct v as [[|x l]|]; simpl; try discriminate; eauto. Qed.

Lemma nonempty_or_nonempty {A : Type} (v : option (list A)) (d : list A) :
  d <> [] -> nonempty_or v d <> [].
Proof. destruct v as [[|x l]|]; simpl; auto; discriminate. Qed.

(** A row with nothing stored maps to the defaults. *)
Example rowToSiteSettings_blank :
  rowToSiteSettings {|
    id := "1"; settings_key := "global"; logo_url := None; logo_alt := None;
    phone_number := None; phone_display := None; phone_availability := None;
    apply_phone_globally := None; header_cta_text := None; header_cta_url := None;
    navigation_items := None; footer_about_links := Some []; footer_practice_links := None;
    address_line1 := Some ""; address_line2 := None; map_embed_url := None;
    social_links := Some []; copyright_text := None; site_noindex := None;
    ga4_measurement_id := None; google_ads_id := None;
    google_ads_conversion_label := None; head_scripts := None; footer_scripts := None;
    site_name := None; updated_at := "2026-01-01T00:00:00Z"; updated_by := None
  |} = DEFAULT_SITE_SETTINGS.
Proof. reflexivity. Qed.

Example siteSettingsToRow_defaults_scripts :
  p_head_scripts (siteSettingsToRow DEFAULT_SITE_SETTINGS) = Present None /\
  p_site_name (siteSettingsToRow DEFAULT_SITE_SETTINGS)
    = Present (Some "Silva Trial Lawyers").
Proof. split; reflexivity. Qed.

(** ** C3 *)

(** C3, as stated, fails: a row whose fields are all non-null and whose
    sequences are all non-empty, but whose site name is the empty string,
    comes back from [rowToSiteSettings] then [siteSettingsToRow] with the
    default site name in place of the empty one. *)
Lemma row_round_trip_loses_empty_text :
  populated unnamed_row = true /\
  ~ carries unnamed_row (siteSettingsToRow (rowToSiteSettings unnamed_row)) /\
  p_site_name (siteSettingsToRow (rowToSiteSettings unnamed_row))
    = Present (Some "Silva Trial Lawyers").
Proof.
  split; [reflexivity|]. split; [|reflexivity].
  intros [Htext _]. specialize (Htext Site_name). discriminate Htext.
Qed.

(** C3, amended: for every row whose fields are all populated -- text fields
    non-null and non-empty, booleans non-null, sequences non-null and
    non-empty -- [rowToSiteSettings] then [siteSettingsToRow] yields a
    partial row in which every key present holds the value of the original
    row; the four audit keys (id, settings_key, updated_at, updated_by) are
    not part of it. *)
Theorem row_round_trip (row : SiteSettingsRow) :
  populated_with_text row = true ->
  let p := siteSettingsToRow (rowToSiteSettings row) in
  carries row p /\
  p_id p = Missing /\ p_settings_key p = Missing /\
  p_updated_at p = Missing /\ p_updated_by p = Missing.
Proof.
  intros Hpop p. unfold populated_with_text in Hpop.
  rewrite !andb_true_iff, forallb_forall in Hpop.
  destruct Hpop as [[[[[[Htext Hb1] Hb2] Hn] Hfa] Hfp] Hs].
  split; [|repeat split].
  assert (Hcol : forall c, has_text (stored c row) = true).
  { intros c. apply Htext. unfold text_columns. destruct c; simpl; auto 20. }
  split; [|repeat split].
  - intros c. pose proof (Hcol c) as Hc.
    apply has_text_inv in Hc as (s & Hs' & Ht).
    destruct c; simpl in *; rewrite Hs'; simpl; unfold or_null; rewrite ?Ht;
      simpl; rewrite ?Ht; reflexivity.
  - apply is_some_inv in Hb1 as [b Hb]. exists b. subst p; simpl.
    rewrite Hb. done.
  - apply is_some_inv in Hb2 as [b Hb]. exists b. subst p; simpl.
    rewrite Hb. done.
  - apply has_items_inv in Hn as (x & l & Hl). exists (x :: l). subst p; simpl.
    rewrite Hl. done.
  - apply has_items_inv in Hfa as (x & l & Hl). exists (x :: l). subst p; simpl.
    rewrite Hl. done.
  - apply has_items_inv in Hfp as (x & l & Hl). exists (x :: l). subst p; simpl.
    rewrite Hl. done.
  - apply has_items_inv in Hs as (x & l & Hl). exists (x :: l). subst p; simpl.
    rewrite Hl. done.
Qed.

Lemma row_round_trip_witness :
  populated_with_text named_row = true /\
  carries named_row (siteSettingsToRow (rowToSiteSettings named_row)).
Proof.
  split; [reflexivity|].
  apply (row_round_trip named_row). reflexivity.
Defined.

(** ** C6 *)

(** C6, as stated, fails: the logo URL is a nullable text column like the
    others, and an empty logo URL is written to the row as the empty string,
    not as null. *)
Lemma empty_logo_url_is_not_nulled :
  text_of Logo_url settings_without_logo = "" /\
  written Logo_url (siteSettingsToRow settings_without_logo) = Present (Some "") /\
  ~ (forall s c, text_of c s = "" ->
                 written c (siteSettingsToRow s) = Present None).
Proof.
  split; [reflexivity|]. split; [reflexivity|].
  intros H. specialize (H settings_without_logo Logo_url eq_refl).
  discriminate H.
Qed.

(** C6, amended: for every SiteSettings value, siteSettingsToRow writes each
    of the five analytics and script fields (ga4MeasurementId, googleAdsId,
    googleAdsConversionLabel, headScripts, footerScripts) as an explicit
    null when it is the empty string and as the string otherwise; every
    other text field is written as it is, the empty string included. *)
Theorem siteSettingsToRow_text (s : SiteSettings) (c : TextColumn) :
  written c (siteSettingsToRow s) =
    Present (if cleared_when_empty c
             then (if truthy (text_of c s) then Some (text_of c s) else None)
             else Some (text_of c s)).
Proof. destruct c; reflexivity. Qed.

(** ** Sequences of [rowToSiteSettings] *)

Lemma rowToSiteSettings_sequences_nonempty (row : SiteSettingsRow) :
  navigationItems (rowToSiteSettings row) <> [] /\
  footerAboutLinks (rowToSiteSettings row) <> [] /\
  footerPracticeLinks (rowToSiteSettings row) <> [] /\
  socialLinks (rowToSiteSettings row) <> [].
Proof. repeat split; apply nonempty_or_nonempty; discriminate. Qed.

Lemma rowToSiteSettings_sequences_seeded (row : SiteSettingsRow) :
  (has_items (navigation_items row) = false ->
     navigationItems (rowToSiteSettings row) = navigationItems DEFAULT_SITE_SETTINGS) /\
  (has_items (footer_about_links row) = false ->
     footerAboutLinks (rowToSiteSettings row) = footerAboutLinks DEFAULT_SITE_SETTINGS) /\
  (has_items (footer_practice_links row) = false ->
     footerPracticeLinks (rowToSiteSettings row)
       = footerPracticeLinks DEFAULT_SITE_SETTINGS) /\
  (has_items (social_links row) = false ->
     socialLinks (rowToSiteSettings row) = socialLinks DEFAULT_SITE_SETTINGS).
Proof.
  repeat split; intros H; simpl.
  - destruct (navigation_items row) as [[|? ?]|]; simpl in *; congruence.
  - destruct (footer_about_links row) as [[|? ?]|]; simpl in *; congruence.
  - destruct (footer_practice_links row) as [[|? ?]|]; simpl in *; congruence.
  - destruct (social_links row) as [[|? ?]|]; simpl in *; congruence.
Qed.

End RowMapping.

(* ===================================================================== *)
(** * Properties of the settings cache *)
(* ===================================================================== *)

Section SettingsCache.
Import SiteSettingsTypes UseSiteSettings.

Variable DEFAULT_SITE_SETTINGS : SiteSettings.
Variable rowToSiteSettings : SiteSettingsRow -> SiteSettings.

Local Open Scope list_scope.
Local Set Warnings "-notation-for-abbreviation".
Notation fetch_body := (UseSiteSettings.fetch_body DEFAULT_SITE_SETTINGS rowToSiteSettings).
Notation mount := (UseSiteSettings.mount DEFAULT_SITE_SETTINGS).
Notation respond := (UseSiteSettings.respond DEFAULT_SITE_SETTINGS rowToSiteSettings).
Notation deliver := (UseSiteSettings.deliver DEFAULT_SITE_SETTINGS).
Notation step := (UseSiteSettings.step DEFAULT_SITE_SETTINGS rowToSiteSettings).
Notation run := (UseSiteSettings.run DEFAULT_SITE_SETTINGS rowToSiteSettings).
Notation starter := (UseSiteSettings.starter DEFAULT_SITE_SETTINGS).
Notation joiner := (UseSiteSettings.joiner DEFAULT_SITE_SETTINGS).
Notation resolved := (UseSiteSettings.resolved DEFAULT_SITE_SETTINGS).
Notation waiter := (UseSiteSettings.waiter DEFAULT_SITE_SETTINGS).
Notation resuming := (UseSiteSettings.resuming DEFAULT_SITE_SETTINGS).

Lemma insert_last {A : Type} (l : list A) (x y : A) :
  <[length l := y]> (l ++ [x]) = l ++ [y].
Proof.
  replace (length l) with (length l + 0) at 1 by lia.
  rewrite insert_app_r. reflexivity.
Qed.

Lemma lookup_last {A : Type} (l : list A) (x : A) : (l ++ [x]) !! length l = Some x.
Proof. by apply list_lookup_middle. Qed.

Lemma run_app es1 es2 w : run (es1 ++ es2) w = run es2 (run es1 w).
Proof. unfold UseSiteSettings.run. apply foldl_app. Qed.

Lemma run_cons e es w : run (e :: es) w = run es (step w e).
Proof. reflexivity. Qed.

Lemma fetch_body_settled o : fetch_body o <> Pending.
Proof.
  destruct o as [err | status [err | [v | [| [row|] elems]]]]; simpl;
    try destruct (response_ok status); simpl; discriminate.
Qed.

Lemma resume_started_starter p st :
  st <> Pending ->
  resume_started DEFAULT_SITE_SETTINGS (starter p) st = resolved st.
Proof. destruct st; simpl; [congruence | reflexivity | reflexivity]. Qed.

Lemma resume_joined_joiner p st :
  st <> Pending -> resume_joined (joiner p) st = resolved st.
Proof. destruct st; simpl; [congruence | reflexivity | reflexivity]. Qed.

(** The state after [S K] hooks have mounted on an empty cache with no fetch
    in flight: one request, one pending promise, every new hook waiting. *)
Lemma mounts_waiting K w :
  settingsCache w = None -> fetchPromise w = None ->
  run (mounts (S K)) w = {|
    settingsCache := None;
    fetchPromise := Some (length (promises w));
    promises := promises w ++ [Pending];
    hooks := hooks w ++ starter (length (promises w))
                        :: replicate K (joiner (length (promises w)));
    requests := S (requests w)
  |}.
Proof.
  intros Hc Hf. induction K as [|K IH].
  - unfold mounts. simpl. unfold UseSiteSettings.mount, fetchSettings, render.
    rewrite Hc, Hf. reflexivity.
  - unfold mounts in *. rewrite replicate_S_end, run_app, IH.
    simpl. unfold UseSiteSettings.mount, fetchSettings, render. simpl.
    f_equal. rewrite <- app_assoc. simpl. f_equal. f_equal.
    change (joiner (length (promises w)) :: replicate K (joiner (length (promises w))))
      with (replicate (S K) (joiner (length (promises w)))).
    rewrite replicate_S_end. reflexivity.
Qed.

Lemma waiters_lookup (p K i : nat) :
  i < S K -> (starter p :: replicate K (joiner p)) !! i = Some (waiter p i).
Proof.
  intros Hi. destruct i as [|i]; [reflexivity|].
  simpl. apply lookup_replicate_2. lia.
Qed.

Lemma respond_pending p o w :
  promises w !! p = Some Pending ->
  respond p o w = {|
    settingsCache := settingsCache w; fetchPromise := fetchPromise w;
    promises := <[p := fetch_body o]> (promises w); hooks := hooks w;
    requests := requests w
  |}.
Proof. intros H. unfold UseSiteSettings.respond. rewrite H. reflexivity. Qed.

(** ** The hooks of one fetch window resume *)

Lemma resuming_start w0 K o :
  settingsCache w0 = None -> fetchPromise w0 = None ->
  resuming w0 K (fetch_body o)
    (run (mounts (S K) ++ [Respond (length (promises w0)) o]) w0).
Proof.
  intros Hc Hf. rewrite run_app, mounts_waiting by done.
  rewrite run_cons. cbn [UseSiteSettings.step UseSiteSettings.run foldl].
  rewrite respond_pending by (cbn; by apply list_lookup_middle).
  cbn [settingsCache fetchPromise promises hooks requests].
  split; cbn [settingsCache fetchPromise promises hooks requests].
  - reflexivity.
  - replace (length (promises w0)) with (length (promises w0) + 0) at 1 by lia.
    rewrite insert_app_r. reflexivity.
  - rewrite length_app. simpl. rewrite length_replicate. lia.
  - intros j Hj. by apply lookup_app_l.
  - intros i Hi. left. rewrite lookup_app_r by lia.
    replace (length (hooks w0) + i - length (hooks w0)) with i by lia.
    by apply waiters_lookup.
  - left. split; [|done].
    rewrite lookup_app_r by lia. rewrite Nat.sub_diag. reflexivity.
Qed.

Lemma starter_not_resolved p st : starter p <> resolved st.
Proof. intros H. apply (f_equal awaiting) in H. discriminate H. Qed.

(** One continuation runs: the invariant is kept, the hook it belongs to has
    resolved, and a hook that had resolved stays so. *)
Lemma resuming_deliver w0 K st w i :
  st <> Pending -> resuming w0 K st w -> i < S K ->
  resuming w0 K st (deliver (length (hooks w0) + i) w) /\
  hooks (deliver (length (hooks w0) + i) w) !! (length (hooks w0) + i)
    = Some (resolved st) /\
  (forall j, hooks w !! j = Some (resolved st) ->
             hooks (deliver (length (hooks w0) + i) w) !! j = Some (resolved st)).
Proof.
  intros Hst [Hreq Hps Hlen Hold Hnew Hslots] Hi.
  assert (Hp : promises w !! length (promises w0) = Some st).
  { rewrite Hps. by apply list_lookup_middle. }
  destruct (Hnew i Hi) as [Hw | Hr].
  - (* the hook is waiting *)
    destruct i as [|i]; cbn [waiter] in Hw.
    + (* the starter *)
      rewrite Nat.add_0_r in *.
      assert (Hd : deliver (length (hooks w0)) w = {|
        settingsCache := cached st; fetchPromise := None; promises := promises w;
        hooks := <[length (hooks w0) := resolved st]> (hooks w);
        requests := requests w |}).
      { unfold UseSiteSettings.deliver. rewrite Hw. cbn [awaiting starter].
        rewrite Hp. rewrite resume_started_starter by done.
        destruct Hslots as [(_ & Hc & _) | (Hr & _)];
          [|exfalso; apply (starter_not_resolved (length (promises w0)) st);
            congruence].
        destruct st; [done | |]; cbn [cached]; rewrite ?Hc; reflexivity. }
      rewrite Hd. cbn [hooks]. split; [split|split];
        cbn [settingsCache fetchPromise promises hooks requests].
      * done.
      * done.
      * rewrite length_insert. done.
      * intros j Hj. rewrite list_lookup_insert_ne by lia. by apply Hold.
      * intros k Hk. destruct k as [|k].
        -- right. rewrite Nat.add_0_r. apply list_lookup_insert_eq. lia.
        -- rewrite list_lookup_insert_ne by lia. by apply Hnew.
      * right. split; [|done]. apply list_lookup_insert_eq. lia.
      * apply list_lookup_insert_eq. lia.
      * intros j Hj. destruct (decide (length (hooks w0) = j)) as [<- | Hne].
        -- apply list_lookup_insert_eq. lia.
        -- by rewrite list_lookup_insert_ne.
    + (* a joiner *)
      assert (Hd : deliver (length (hooks w0) + S i) w = {|
        settingsCache := settingsCache w; fetchPromise := fetchPromise w;
        promises := promises w;
        hooks := <[length (hooks w0) + S i := resolved st]> (hooks w);
        requests := requests w |}).
      { unfold UseSiteSettings.deliver. rewrite Hw. cbn [awaiting joiner].
        rewrite Hp. rewrite resume_joined_joiner by done.
        destruct st; [done | reflexivity | reflexivity]. }
      rewrite Hd. cbn [hooks]. split; [split|split];
        cbn [settingsCache fetchPromise promises hooks requests].
      * done.
      * done.
      * rewrite length_insert. done.
      * intros j Hj. rewrite list_lookup_insert_ne by lia. by apply Hold.
      * intros k Hk. destruct (decide (S i = k)) as [<- | Hne].
        -- right. apply list_lookup_insert_eq. lia.
        -- rewrite list_lookup_insert_ne by lia. by apply Hnew.
      * rewrite list_lookup_insert_ne by lia. done.
      * apply list_lookup_insert_eq. lia.
      * intros j Hj. destruct (decide (length (hooks w0) + S i = j)) as [<- | Hne].
        -- apply list_lookup_insert_eq. lia.
        -- by rewrite list_lookup_insert_ne.
  - (* the hook has resolved: nothing happens *)
    assert (Hd : deliver (length (hooks w0) + i) w = w).
    { unfold UseSiteSettings.deliver. rewrite Hr. reflexivity. }
    rewrite Hd. split; [by split|]. split; done.
Qed.

(** The continuations run in any order, some of them possibly named twice. *)
Lemma resuming_deliveries w0 K st order :
  st <> Pending ->
  (forall j, j ∈ order -> length (hooks w0) <= j < length (hooks w0) + S K) ->
  forall w, resuming w0 K st w ->
    resuming w0 K st (run (deliveries order) w) /\
    (forall j, j ∈ order \/ hooks w !! j = Some (resolved st) ->
               hooks (run (deliveries order) w) !! j = Some (resolved st)).
Proof.
  intros Hst. induction order as [|j order IH]; intros Hrange w Hw.
  - split; [done|]. intros j [Hj | Hj]; [by apply elem_of_nil in Hj | done].
  - assert (Hj : length (hooks w0) <= j < length (hooks w0) + S K).
    { apply Hrange. by left. }
    replace j with (length (hooks w0) + (j - length (hooks w0))) in * by lia.
    set (i := j - length (hooks w0)) in *.
    destruct (resuming_deliver w0 K st w i Hst Hw ltac:(lia)) as (Hw' & Hi & Hkeep).
    unfold deliveries. rewrite fmap_cons, run_cons. cbn [UseSiteSettings.step].
    destruct (IH (fun k Hk => Hrange k (list_elem_of_further _ _ _ Hk)) _ Hw')
      as (Hfin & Hall).
    split; [done|]. intros k [Hk | Hk].
    + apply elem_of_cons in Hk as [-> | Hk]; apply Hall; [by right | by left].
    + apply Hall. right. by apply Hkeep.
Qed.

(** ** One fetch window, from the first mount to the last continuation *)

Lemma window_end w0 K o order :
  settingsCache w0 = None -> fetchPromise w0 = None -> covers w0 K order ->
  let w := run (window w0 K o order) w0 in
  requests w = S (requests w0) /\
  promises w = promises w0 ++ [fetch_body o] /\
  settingsCache w = cached (fetch_body o) /\
  fetchPromise w = None /\
  length (hooks w) = length (hooks w0) + S K /\
  (forall j, j < length (hooks w0) -> hooks w !! j = hooks w0 !! j) /\
  (forall i, i < S K ->
     hooks w !! (length (hooks w0) + i) = Some (resolved (fetch_body o))).
Proof.
  intros Hc Hf [Hrange Hall] w. subst w. unfold window.
  rewrite app_assoc, run_app.
  pose proof (resuming_start w0 K o Hc Hf) as Hstart.
  destruct (resuming_deliveries w0 K _ order (fetch_body_settled o) Hrange _ Hstart)
    as ([Hreq Hps Hlen Hold Hnew Hslots] & Hres).
  assert (Hfin : forall i, i < S K ->
    hooks (run (deliveries order)
             (run (mounts (S K) ++ [Respond (length (promises w0)) o]) w0))
      !! (length (hooks w0) + i) = Some (resolved (fetch_body o))).
  { intros i Hi. apply Hres. left. by apply Hall. }
  repeat split; try done.
  - destruct Hslots as [(Hs & _) | (_ & Hs & _)]; [|done].
    specialize (Hfin 0 ltac:(lia)). replace (length (hooks w0) + 0)
      with (length (hooks w0)) in Hfin by lia.
    exfalso. apply (starter_not_resolved (length (promises w0)) (fetch_body o)).
    congruence.
  - destruct Hslots as [(Hs & _) | (_ & _ & Hs)]; [|done].
    specialize (Hfin 0 ltac:(lia)). replace (length (hooks w0) + 0)
      with (length (hooks w0)) in Hfin by lia.
    exfalso. apply (starter_not_resolved (length (promises w0)) (fetch_body o)).
    congruence.
Qed.

(** ** Fetches that fail, and what keeps the cache populated *)

Lemma fetch_body_transport_error o err :
  transport_error o = Some err -> fetch_body o = Rejected err.
Proof.
  destruct o as [e | status body]; simpl.
  - congruence.
  - destruct (response_ok status); simpl; congruence.
Qed.

Lemma fetch_body_body_error status body err :
  response_ok status = true -> body_error body = Some err ->
  fetch_body (FetchResponse status body) = Rejected err.
Proof.
  intros Hok. simpl. rewrite Hok. simpl.
  destruct body as [e | [v | [| [row|] elems]]]; simpl; congruence.
Qed.

Lemma fetch_body_defaults status data :
  response_ok status = true ->
  Array_isArray data = false \/ data_length data = 0 ->
  fetch_body (FetchResponse status (BodyJson data)) = Fulfilled DEFAULT_SITE_SETTINGS.
Proof.
  intros Hok H. simpl. rewrite Hok. simpl.
  destruct H as [-> | ->]; simpl; [reflexivity|].
  rewrite orb_true_r. reflexivity.
Qed.

(** While the cache is populated, an event other than the invalidation leaves
    it populated and issues no request. *)
Lemma populated_step w e :
  is_Some (settingsCache w) -> is_clear e = false ->
  is_Some (settingsCache (step w e)) /\ requests (step w e) = requests w.
Proof.
  intros [s Hs] He. destruct e as [| p o | i | i |]; simpl in *; try discriminate.
  - unfold UseSiteSettings.mount, fetchSettings. rewrite Hs. simpl. eauto.
  - unfold UseSiteSettings.respond.
    destruct (promises w !! p) as [[| |]|]; simpl; rewrite ?Hs; eauto.
  - unfold UseSiteSettings.deliver.
    destruct (hooks w !! i) as [h|]; [|rewrite Hs; eauto].
    destruct (awaiting h) as [| p | p]; [rewrite Hs; eauto | |];
      destruct (promises w !! p) as [[| |]|]; simpl; rewrite ?Hs; eauto.
  - unfold UseSiteSettings.unmount.
    destruct (hooks w !! i) as [h|]; simpl; rewrite Hs; eauto.
Qed.

Lemma populated_run es w :
  is_Some (settingsCache w) -> forallb (fun e => negb (is_clear e)) es = true ->
  is_Some (settingsCache (run es w)) /\ requests (run es w) = requests w.
Proof.
  revert w. induction es as [|e es IH]; intros w Hs Hes; [done|].
  simpl in Hes. apply andb_true_iff in Hes as [He Hes].
  apply negb_true_iff in He.
  destruct (populated_step w e Hs He) as [Hs' Hr'].
  rewrite run_cons. destruct (IH _ Hs' Hes) as [Hs'' Hr''].
  split; [done | congruence].
Qed.

Lemma mount_cached w s :
  settingsCache w = Some s ->
  mount w = {|
    settingsCache := Some s; fetchPromise := fetchPromise w; promises := promises w;
    hooks := hooks w ++ [{| settings := s; isLoading := false; error := None;
                            isMounted := true; awaiting := Returned |}];
    requests := requests w
  |}.
Proof.
  intros Hs. unfold UseSiteSettings.mount, fetchSettings, render.
  rewrite Hs. reflexivity.
Qed.

Lemma mount_after_clear w :
  mount (clearSiteSettingsCache w) = {|
    settingsCache := None; fetchPromise := Some (length (promises w));
    promises := promises w ++ [Pending];
    hooks := hooks w ++ [starter (length (promises w))];
    requests := S (requests w)
  |}.
Proof. reflexivity. Qed.

Lemma mount_empty w :
  settingsCache w = None -> fetchPromise w = None ->
  mount w = {|
    settingsCache := None; fetchPromise := Some (length (promises w));
    promises := promises w ++ [Pending];
    hooks := hooks w ++ [starter (length (promises w))];
    requests := S (requests w)
  |}.
Proof.
  intros Hc Hf. unfold UseSiteSettings.mount, fetchSettings, render.
  rewrite Hc, Hf. reflexivity.
Qed.

(** ** C1 *)

(** C1 (single-flight): when [S K] hooks (any number, at least one) call
    [useSiteSettings()] while the cached-value slot is empty and no fetch is in
    flight, exactly one request is issued, before and after the answer, and
    once the answer has arrived and their continuations have run -- in any
    order -- all of them have returned with the same settings value. *)
Theorem single_flight w0 K o order :
  settingsCache w0 = None -> fetchPromise w0 = None -> covers w0 K order ->
  let w := run (window w0 K o order) w0 in
  requests (run (mounts (S K)) w0) = requests w0 + 1 /\
  requests w = requests w0 + 1 /\
  length (promises w) = length (promises w0) + 1 /\
  exists s, forall i, i < S K ->
    exists h, hooks w !! (length (hooks w0) + i) = Some h /\
              settings h = s /\ isLoading h = false /\ awaiting h = Returned.
Proof.
  intros Hc Hf Hcov w.
  destruct (window_end w0 K o order Hc Hf Hcov) as (Hreq & Hps & _ & _ & _ & _ & Hnew).
  fold w in Hreq, Hps, Hnew.
  split; [rewrite mounts_waiting by done; simpl; lia|].
  split; [lia|].
  split; [rewrite Hps, length_app; simpl; lia|].
  exists (settings (resolved (fetch_body o))).
  intros i Hi. exists (resolved (fetch_body o)). split; [by apply Hnew | done].
Qed.

(** ** C2 *)

(** C2, amended: when the body of a 2xx response cannot be used -- it is not
    JSON, so that [response.json()] rejects, or it is an array whose first
    element is null -- the fetch promise is rejected, every waiter (the hook
    that started the fetch and all that joined it) receives that same error,
    and nothing is cached.  A body that is JSON but not an array is not an
    error: the promise is fulfilled with the defaults, which are cached, and
    no waiter receives an error. *)
Theorem unusable_body w0 K status body order :
  settingsCache w0 = None -> fetchPromise w0 = None -> covers w0 K order ->
  response_ok status = true ->
  let w := run (window w0 K (FetchResponse status body) order) w0 in
  (forall err, body_error body = Some err ->
     promises w !! length (promises w0) = Some (Rejected err) /\
     settingsCache w = None /\
     forall i, i < S K ->
       exists h, hooks w !! (length (hooks w0) + i) = Some h /\
                 error h = Some (as_error err) /\ awaiting h = Returned) /\
  (forall v, body = BodyJson (NotAnArray v) ->
     promises w !! length (promises w0) = Some (Fulfilled DEFAULT_SITE_SETTINGS) /\
     settingsCache w = Some DEFAULT_SITE_SETTINGS /\
     forall i, i < S K ->
       exists h, hooks w !! (length (hooks w0) + i) = Some h /\
                 error h = None /\ settings h = DEFAULT_SITE_SETTINGS /\
                 awaiting h = Returned).
Proof.
  intros Hc Hf Hcov Hok w.
  destruct (window_end w0 K (FetchResponse status body) order Hc Hf Hcov)
    as (_ & Hps & Hcache & _ & _ & _ & Hnew).
  fold w in Hps, Hcache, Hnew.
  split.
  - intros err Herr.
    rewrite (fetch_body_body_error status body err Hok Herr) in *.
    split; [rewrite Hps; by apply list_lookup_middle|].
    split; [done|].
    intros i Hi. eexists. split; [by apply Hnew | done].
  - intros v ->.
    rewrite (fetch_body_defaults status (NotAnArray v) Hok (or_introl eq_refl)) in *.
    split; [rewrite Hps; by apply list_lookup_middle|].
    split; [done|].
    intros i Hi. eexists. split; [by apply Hnew | done].
Qed.

(** ** C4 *)

(** C4 (failure fallback): when the fetch fails in transport (the network
    fails or the status is not 2xx), every hook of the window ends with
    settings equal to the defaults and a non-null error; the cached-value
    slot and the in-flight slot are empty afterwards, and the next call
    issues a new request. *)
Theorem failure_fallback w0 K o err order :
  settingsCache w0 = None -> fetchPromise w0 = None -> covers w0 K order ->
  transport_error o = Some err ->
  let w := run (window w0 K o order) w0 in
  (forall i, i < S K ->
     exists h, hooks w !! (length (hooks w0) + i) = Some h /\
               settings h = DEFAULT_SITE_SETTINGS /\
               error h = Some (as_error err) /\
               isLoading h = false) /\
  settingsCache w = None /\
  fetchPromise w = None /\
  requests w = requests w0 + 1 /\
  requests (mount w) = requests w0 + 2 /\
  promises (mount w) !! (length (promises w0) + 1) = Some Pending /\
  fetchPromise (mount w) = Some (length (promises w0) + 1).
Proof.
  intros Hc Hf Hcov Herr w.
  destruct (window_end w0 K o order Hc Hf Hcov)
    as (Hreq & Hps & Hcache & Hfp & _ & _ & Hnew).
  fold w in Hreq, Hps, Hcache, Hfp, Hnew.
  rewrite (fetch_body_transport_error o err Herr) in *. simpl in Hcache.
  split.
  { intros i Hi. eexists. split; [by apply Hnew | done]. }
  split; [done|]. split; [done|]. split; [lia|].
  rewrite (mount_empty w Hcache Hfp). simpl. rewrite Hps, length_app. simpl.
  split; [lia|]. split; [|done].
  apply list_lookup_middle. rewrite length_app. simpl. lia.
Qed.

(** ** C5 *)

(** C5 (fast path): from a world whose cached-value slot is populated, no
    sequence of events without an invalidation issues a request, and the slot
    stays populated; a hook that mounts then returns at once with the cached
    value, not loading, without a request.  After [clearSiteSettingsCache()]
    the next call issues exactly one request. *)
Theorem fast_path w es :
  is_Some (settingsCache w) ->
  forallb (fun e => negb (is_clear e)) es = true ->
  let w' := run es w in
  requests w' = requests w /\
  (exists s, settingsCache w' = Some s /\
     requests (mount w') = requests w' /\
     promises (mount w') = promises w' /\
     settingsCache (mount w') = Some s /\
     hooks (mount w') !! length (hooks w') =
       Some {| settings := s; isLoading := false; error := None;
               isMounted := true; awaiting := Returned |}) /\
  settingsCache (clearSiteSettingsCache w') = None /\
  fetchPromise (clearSiteSettingsCache w') = None /\
  requests (mount (clearSiteSettingsCache w')) = requests w' + 1.
Proof.
  intros Hs Hes w'.
  destruct (populated_run es w Hs Hes) as [[s Hs'] Hreq]. fold w' in Hs', Hreq.
  split; [done|]. split.
  - exists s. rewrite (mount_cached w' s Hs'). simpl.
    repeat split; try done. by apply list_lookup_middle.
  - rewrite mount_after_clear. simpl. repeat split; lia.
Qed.

(** ** C7 *)

(** C7 (default substitution): a 2xx response whose body is the empty array
    fulfils the fetch with the defaults; every hook of the window ends with
    settings equal to the defaults and no error.  And for every row, the four
    sequences of [rowToSiteSettings row] are non-empty, the default seed list
    standing in for a stored sequence that is absent or empty. *)
Theorem default_substitution w0 K status order :
  settingsCache w0 = None -> fetchPromise w0 = None -> covers w0 K order ->
  response_ok status = true ->
  let w := run (window w0 K (FetchResponse status (BodyJson (JArray []))) order) w0 in
  promises w !! length (promises w0) = Some (Fulfilled DEFAULT_SITE_SETTINGS) /\
  (forall i, i < S K ->
     hooks w !! (length (hooks w0) + i) =
       Some {| settings := DEFAULT_SITE_SETTINGS; isLoading := false; error := None;
               isMounted := true; awaiting := Returned |}) /\
  (forall row,
     let s := SiteSettingsTypes.rowToSiteSettings row in
     let d := SiteSettingsTypes.DEFAULT_SITE_SETTINGS in
     navigationItems s <> [] /\ footerAboutLinks s <> [] /\
     footerPracticeLinks s <> [] /\ socialLinks s <> [] /\
     (has_items (navigation_items row) = false ->
        navigationItems s = navigationItems d) /\
     (has_items (footer_about_links row) = false ->
        footerAboutLinks s = footerAboutLinks d) /\
     (has_items (footer_practice_links row) = false ->
        footerPracticeLinks s = footerPracticeLinks d) /\
     (has_items (social_links row) = false -> socialLinks s = socialLinks d)).
Proof.
  intros Hc Hf Hcov Hok w.
  destruct (window_end w0 K (FetchResponse status (BodyJson (JArray []))) order
              Hc Hf Hcov) as (_ & Hps & _ & _ & _ & _ & Hnew).
  fold w in Hps, Hnew.
  rewrite (fetch_body_defaults status (JArray []) Hok (or_intror eq_refl)) in *.
  split; [rewrite Hps; by apply list_lookup_middle|].
  split; [intros i Hi; by apply Hnew|].
  intros row s d.
  destruct (rowToSiteSettings_sequences_nonempty row) as (H1 & H2 & H3 & H4).
  destruct (rowToSiteSettings_sequences_seeded row) as (H5 & H6 & H7 & H8).
  repeat split; done.
Qed.

(** ** C10 *)

(** C10: a [clearSiteSettingsCache()] while a fetch is in flight empties both
    slots but leaves the promise pending and its starter waiting; when the
    fetch then succeeds, the starter's continuation writes the result into
    the cached-value slot, which is thus populated after the invalidation
    with the value of the fetch that began before it. *)
Theorem invalidate_does_not_cancel w0 o result :
  settingsCache w0 = None -> fetchPromise w0 = None ->
  fetch_body o = Fulfilled result ->
  let p := length (promises w0) in
  let i := length (hooks w0) in
  let w1 := run [Mount; ClearSiteSettingsCache] w0 in
  let w2 := run [Respond p o; Deliver i] w1 in
  settingsCache w1 = None /\ fetchPromise w1 = None /\
  promises w1 !! p = Some Pending /\
  hooks w1 !! i = Some (starter p) /\
  promises w2 !! p = Some (Fulfilled result) /\
  settingsCache w2 = Some result /\
  hooks w2 !! i = Some (resolved (Fulfilled result)).
Proof.
  intros Hc Hf Ho p i w1 w2.
  assert (H1 : w1 = {|
    settingsCache := None; fetchPromise := None;
    promises := promises w0 ++ [Pending];
    hooks := hooks w0 ++ [starter p]; requests := S (requests w0) |}).
  { subst w1. rewrite run_cons. cbn [UseSiteSettings.step].
    rewrite (mount_empty w0 Hc Hf). reflexivity. }
  assert (Hp : promises w1 !! p = Some Pending).
  { rewrite H1. simpl. by apply list_lookup_middle. }
  assert (Hi : hooks w1 !! i = Some (starter p)).
  { rewrite H1. simpl. by apply list_lookup_middle. }
  assert (H2 : w2 = {|
    settingsCache := Some result; fetchPromise := None;
    promises := promises w0 ++ [Fulfilled result];
    hooks := hooks w0 ++ [resolved (Fulfilled result)];
    requests := S (requests w0) |}).
  { subst w2. rewrite run_cons. cbn [UseSiteSettings.step].
    rewrite (respond_pending p o w1 Hp), Ho.
    rewrite run_cons. cbn [UseSiteSettings.step UseSiteSettings.run foldl].
    unfold UseSiteSettings.deliver.
    cbn [settingsCache fetchPromise promises hooks requests].
    rewrite Hi. cbn [awaiting starter].
    rewrite H1. cbn [settingsCache fetchPromise promises hooks requests].
    unfold p, i. rewrite !insert_last, lookup_last. cbn.
    rewrite insert_last. reflexivity. }
  rewrite H2. subst p i. rewrite H1. simpl.
  repeat split; try done; by apply list_lookup_middle.
Qed.

End SettingsCache.

(** ** The cache at the values of [siteSettingsTypes] *)

Section SettingsCacheExamples.
Import SiteSettingsTypes UseSiteSettings.
Local Open Scope list_scope.
Local Open Scope Z_scope.

(** Three hooks mount on the initial world; their continuations run last
    hook first. *)
Example three_hooks_one_request :
  let w := run_hook (window initial 2 one_row [2; 0; 1]%nat) initial in
  requests w = 1%nat /\
  settingsCache w = Some (rowToSiteSettings named_row) /\
  settings <$> hooks w = replicate 3 (rowToSiteSettings named_row) /\
  isLoading <$> hooks w = [false; false; false].
Proof. vm_compute. repeat split. Qed.

Example two_windows_after_a_failure :
  let w := run_hook (window initial 0 server_error [0%nat]) initial in
  let w' := run_hook (window w 1 one_row [1; 2]%nat) w in
  requests w = 1%nat /\ settingsCache w = None /\
  error <$> hooks w = [Some (HttpError 500)] /\
  requests w' = 2%nat /\ settingsCache w' = Some (rowToSiteSettings named_row).
Proof. vm_compute. repeat split. Qed.

Lemma covers_three : covers initial 2 [2; 0; 1]%nat.
Proof.
  split.
  - intros j Hj. simpl.
    repeat (apply elem_of_cons in Hj as [-> | Hj]; [lia|]).
    by apply elem_of_nil in Hj.
  - intros i Hi. simpl. destruct i as [|[|[|i]]]; [| | |lia]; repeat constructor.
Qed.

Lemma single_flight_witness :
  settingsCache initial = None /\ fetchPromise initial = None /\
  requests (run_hook (window initial 2 one_row [2; 0; 1]%nat) initial) = 1%nat.
Proof.
  split; [reflexivity|]. split; [reflexivity|].
  destruct (single_flight DEFAULT_SITE_SETTINGS rowToSiteSettings initial 2 one_row
              [2; 0; 1]%nat eq_refl eq_refl covers_three) as (_ & H & _).
  exact H.
Defined.

(** C2, as stated, fails: a 2xx response whose body is a JSON object, not an
    array, fulfils the fetch with the defaults; the waiters receive no error
    and the defaults are cached. *)
Lemma non_array_body_is_not_an_error :
  let w := run_hook (window initial 1 error_object [0; 1]%nat) initial in
  (malformed (BodyJson (NotAnArray (JObject ["message"]))) = true /\
   promises w !! 0%nat = Some (Fulfilled DEFAULT_SITE_SETTINGS) /\
   settingsCache w = Some DEFAULT_SITE_SETTINGS /\
   error <$> hooks w !! 0%nat = Some None /\
   error <$> hooks w !! 1%nat = Some None) /\
  ~ (forall status body,
       response_ok status = true -> malformed body = true ->
       exists h e,
         hooks (run_hook (window initial 0 (FetchResponse status body) [0%nat]) initial)
           !! 0%nat = Some h /\ error h = Some e).
Proof.
  split; [vm_compute; repeat split|].
  intros H.
  destruct (H 200 (BodyJson (NotAnArray (JObject ["message"]))) eq_refl eq_refl)
    as (h & e & Hh & He).
  vm_compute in Hh. injection Hh as <-. discriminate He.
Qed.

Lemma unusable_body_witness :
  response_ok 200 = true /\
  settingsCache
    (run_hook (window initial 2 (FetchResponse 200 not_json) [2; 0; 1]%nat) initial)
    = None.
Proof.
  split; [reflexivity|].
  destruct (unusable_body DEFAULT_SITE_SETTINGS rowToSiteSettings initial 2 200 not_json
              [2; 0; 1]%nat eq_refl eq_refl covers_three eq_refl) as (H & _).
  destruct (H _ eq_refl) as (_ & Hc & _). exact Hc.
Defined.

Lemma failure_fallback_witness :
  transport_error server_error = Some (ThrowError (HttpError 500)) /\
  requests
    (mount_hook (run_hook (window initial 2 server_error [2; 0; 1]%nat) initial))
    = 2%nat.
Proof.
  split; [reflexivity|].
  destruct (failure_fallback DEFAULT_SITE_SETTINGS rowToSiteSettings initial 2
              server_error (ThrowError (HttpError 500)) [2; 0; 1]%nat
              eq_refl eq_refl covers_three eq_refl) as (_ & _ & _ & _ & H & _).
  exact H.
Defined.

Lemma fast_path_witness :
  is_Some (settingsCache populated_world) /\
  requests (run_hook [Mount; Unmount 0; Mount; Deliver 1] populated_world) = 1%nat.
Proof.
  assert (Hs : is_Some (settingsCache populated_world)).
  { vm_compute. eauto. }
  split; [exact Hs|].
  destruct (fast_path DEFAULT_SITE_SETTINGS rowToSiteSettings populated_world
              [Mount; Unmount 0; Mount; Deliver 1] Hs eq_refl) as (H & _).
  exact H.
Defined.

Lemma default_substitution_witness :
  response_ok 200 = true /\
  promises (run_hook (window initial 2 no_rows [2; 0; 1]%nat) initial) !! 0%nat
    = Some (Fulfilled DEFAULT_SITE_SETTINGS).
Proof.
  split; [reflexivity|].
  destruct (default_substitution DEFAULT_SITE_SETTINGS rowToSiteSettings initial 2 200
              [2; 0; 1]%nat eq_refl eq_refl covers_three eq_refl) as (H & _).
  exact H.
Defined.

Lemma invalidate_does_not_cancel_witness :
  UseSiteSettings.fetch_body DEFAULT_SITE_SETTINGS rowToSiteSettings one_row
    = Fulfilled (rowToSiteSettings named_row) /\
  settingsCache
    (run_hook [Respond 0 one_row; Deliver 0]
       (run_hook [Mount; ClearSiteSettingsCache] initial))
    = Some (rowToSiteSettings named_row).
Proof.
  split; [reflexivity|].
  destruct (invalidate_does_not_cancel DEFAULT_SITE_SETTINGS rowToSiteSettings initial
              one_row (rowToSiteSettings named_row) eq_refl eq_refl eq_refl)
    as (_ & _ & _ & _ & _ & H & _).
  exact H.
Defined.

End SettingsCacheExamples.

(* ===================================================================== *)
(** * Properties of the page content editor *)
(* ===================================================================== *)

Section EditorHandlers.
Import PageContentEditor.
Local Open Scope list_scope.

Lemma prop_set_prop_eq k x props : prop k (set_prop k x props) = Some x.
Proof.
  induction props as [|[k' y] rest IH]; simpl.
  - by rewrite String.eqb_refl.
  - destruct (String.eqb k k') eqn:E; simpl; rewrite ?String.eqb_refl, ?E; done.
Qed.

Lemma prop_set_prop_ne k k' x props :
  k' <> k -> prop k' (set_prop k x props) = prop k' props.
Proof.
  intros Hne. induction props as [|[k0 y] rest IH]; simpl.
  - apply String.eqb_neq in Hne. by rewrite Hne.
  - destruct (String.eqb k k0) eqn:E; simpl.
    + apply String.eqb_eq in E as <-.
      apply String.eqb_neq in Hne. by rewrite Hne.
    + destruct (String.eqb k' k0); done.
Qed.

Lemma lookup_set_prop_eq k x props : lookup_prop k (set_prop k x props) = x.
Proof. unfold lookup_prop. by rewrite prop_set_prop_eq. Qed.

Lemma rendered_key h k rest d :
  rendered h (Key k :: rest) d = true ->
  exists a props, d = VRef a /\ h !! a = Some (Object props) /\
                  rendered h rest (lookup_prop k props) = true.
Proof.
  simpl. destruct d as [| | | | |a]; try discriminate.
  destruct (h !! a) as [[props|elems]|] eqn:E; try discriminate. eauto.
Qed.

Lemma rendered_index h i rest d :
  rendered h (Index i :: rest) d = true ->
  exists a elems item, d = VRef a /\ h !! a = Some (Array elems) /\
                       elems !! i = Some item /\ rendered h rest item = true.
Proof.
  simpl. destruct d as [| | | | |a]; try discriminate.
  destruct (h !! a) as [[props|elems]|] eqn:E; try discriminate.
  destruct (elems !! i) as [item|] eqn:Ei; try discriminate. eauto 10.
Qed.

(** *** The primitive steps, as equations *)

Lemma get_object a k props st :
  heap st !! a = Some (Object props) ->
  get (VRef a) k st = Some (lookup_prop k props, st).
Proof. intros H. unfold get. by rewrite H. Qed.

Lemma own_props_object h a props :
  h !! a = Some (Object props) -> own_props h (VRef a) = props.
Proof. intros H. simpl. by rewrite H. Qed.

Lemma insert_at_length {A : Type} (l : list A) (x y : A) (rest : list A) :
  <[length l := y]> (l ++ x :: rest) = l ++ y :: rest.
Proof.
  replace (length l) with (length l + 0) at 1 by lia.
  rewrite insert_app_r. reflexivity.
Qed.

Lemma lookup_at_length {A : Type} (l : list A) (x : A) (rest : list A) :
  (l ++ x :: rest) !! length l = Some x.
Proof. by apply list_lookup_middle. Qed.

Lemma spread_with_ret v k x st :
  spread_with v k (ret x) st =
    Some (VRef (length (heap st)),
          {| heap := heap st ++ [Object (set_prop k x (own_props (heap st) v))];
             calls := calls st |}).
Proof.
  unfold spread_with, bind, spread, alloc, ret, define_prop. cbn [heap calls].
  rewrite lookup_at_length, insert_at_length. reflexivity.
Qed.

Lemma spread_with_lines v k sep s st :
  spread_with v k (split_filter sep s) st =
    Some (VRef (length (heap st)),
          {| heap := heap st ++
               [Object (set_prop k (VRef (length (heap st) + 2)) (own_props (heap st) v));
                Array (VString <$> split sep s);
                Array (VString <$> filter (fun x => truthy x = true) (split sep s))];
             calls := calls st |}).
Proof.
  unfold spread_with, split_filter, bind, spread, alloc, ret, define_prop.
  cbn [heap calls]. rewrite <- !app_assoc. cbn [app].
  rewrite lookup_at_length, insert_at_length.
  rewrite !length_app. cbn [length].
  replace (length (heap st) + 1 + 1) with (length (heap st) + 2) by lia.
  replace (length (heap st) + 1) with (S (length (heap st))) by lia.
  reflexivity.
Qed.

Lemma update_eq content key value st :
  update content key value st =
    Some (tt,
          {| heap := heap st ++ [Object (set_prop key value (own_props (heap st) content))];
             calls := calls st ++ [VRef (length (heap st))] |}).
Proof.
  unfold update, bind. rewrite spread_with_ret. reflexivity.
Qed.

Lemma item_at_array a elems index item st :
  heap st !! a = Some (Array elems) -> elems !! index = Some item ->
  item_at (VRef a) index st = Some (item, st).
Proof. intros H Hi. unfold item_at. by rewrite H, Hi. Qed.

Lemma updateItem_array a elems index item onItems st :
  heap st !! a = Some (Array elems) -> index < length elems ->
  updateItem (VRef a) onItems index item st =
    onItems (VRef (length (heap st)))
      {| heap := heap st ++ [Array (<[index := item]> elems)]; calls := calls st |}.
Proof.
  intros H Hi. unfold updateItem, bind, iterate, alloc, store_index.
  rewrite H. cbn [heap calls]. rewrite lookup_at_length, insert_at_length.
  unfold assign_index. apply Nat.ltb_lt in Hi. rewrite Hi. reflexivity.
Qed.

Lemma lookup_fresh {A : Type} (l ext : list A) (i : nat) :
  (l ++ ext) !! (length l + i) = ext !! i.
Proof. rewrite lookup_app_r by lia. f_equal. lia. Qed.

Lemma lookup_old {A : Type} (l ext : list A) (a : nat) (x : A) :
  l !! a = Some x -> (l ++ ext) !! a = Some x.
Proof. apply lookup_app_l_Some. Qed.

(** *** [split] and the list operations of [ArrayEditor] *)

Example split_paragraphs :
  split PARAGRAPHS ("a" ++ LF ++ LF ++ LF ++ "b")%string = ["a"; (LF ++ "b")%string].
Proof. reflexivity. Qed.

Example split_lines :
  filter (fun s => truthy s = true) (split LF ("a" ++ LF ++ LF ++ "b" ++ LF)%string)
    = ["a"; "b"].
Proof. reflexivity. Qed.

(** Removing the item at [index]: a new array without it is passed up in a
    new document; the store is only extended. *)
Lemma removeItem_update content key a elems index st :
  heap st !! a = Some (Array elems) ->
  removeItem (VRef a) (fun items => update content key items) index st =
    Some (tt,
          {| heap := heap st ++
               [Array (delete index elems);
                Object (set_prop key (VRef (length (heap st)))
                          (own_props (heap st ++ [Array (delete index elems)]) content))];
             calls := calls st ++ [VRef (length (heap st) + 1)] |}).
Proof.
  intros H. unfold removeItem, bind, alloc. rewrite H. cbn [heap calls].
  rewrite update_eq. cbn [heap calls]. rewrite <- app_assoc, length_app. reflexivity.
Qed.

(** Adding an item made from a template: a new array with the new item at
    the end is passed up in a new document; the store is only extended. *)
Lemma addItem_update content key a elems template st :
  heap st !! a = Some (Array elems) ->
  addItem (VRef a) (alloc (Object template)) (fun items => update content key items) st =
    Some (tt,
          {| heap := heap st ++
               [Object template;
                Array (elems ++ [VRef (length (heap st))]);
                Object (set_prop key (VRef (length (heap st) + 1))
                          (own_props (heap st ++
                             [Object template;
                              Array (elems ++ [VRef (length (heap st))])]) content))];
             calls := calls st ++ [VRef (length (heap st) + 2)] |}).
Proof.
  intros H. unfold addItem, bind, iterate, alloc. rewrite H. cbn [heap calls].
  rewrite update_eq. cbn [heap calls].
  rewrite <- !app_assoc, !length_app. cbn [app length].
  replace (length (heap st) + 1 + 1) with (length (heap st) + 2) by lia.
  reflexivity.
Qed.

(** *** Building [edited] along the path *)

Lemma edited_key h h' k rest x a a' props child' :
  h !! a = Some (Object props) ->
  h' !! a' = Some (Object (set_prop k child' props)) ->
  length h <= a' ->
  edited h h' rest x (lookup_prop k props) child' ->
  edited h h' (Key k :: rest) x (VRef a) (VRef a').
Proof.
  intros Ha Ha' Hfresh Hrest. simpl.
  exists a, a', props, (set_prop k child' props).
  repeat split; try done.
  - intros k' Hne. by apply prop_set_prop_ne.
  - rewrite prop_set_prop_eq. eauto.
  - by rewrite lookup_set_prop_eq.
Qed.

Lemma edited_index h h' i rest x a a' elems item item' :
  h !! a = Some (Array elems) ->
  h' !! a' = Some (Array (<[i := item']> elems)) ->
  length h <= a' ->
  elems !! i = Some item ->
  edited h h' rest x item item' ->
  edited h h' (Index i :: rest) x (VRef a) (VRef a').
Proof.
  intros Ha Ha' Hfresh Hi Hrest. simpl.
  exists a, a', elems, (<[i := item']> elems), item, item'.
  repeat split; try done.
  - apply length_insert.
  - intros j Hne. by apply list_lookup_insert_ne.
  - apply list_lookup_insert_eq. by eapply lookup_lt_Some.
Qed.

Lemma handle_Field key index v content st :
  rendered (heap st) (path (Field key) index) content = true ->
  handled st content (Field key) index v (handle content (Field key) index v st).
Proof.
  intros Hr. apply rendered_key in Hr as (a & props & -> & Ha & _).
  change (handle (VRef a) (Field key) index v st)
    with (update (VRef a) key (VString v) st).
  rewrite update_eq, (own_props_object _ _ _ Ha).
  eexists _, _. split; [reflexivity|]. cbn [heap calls].
  split; [reflexivity|]. split; [eauto|].
  exists (VString v). split; [reflexivity|].
  eapply edited_key; [done | apply lookup_at_length | lia | reflexivity].
Qed.

Lemma handle_SectionField section field index v content st :
  rendered (heap st) (path (SectionField section field) index) content = true ->
  handled st content (SectionField section field) index v
    (handle content (SectionField section field) index v st).
Proof.
  intros Hr. apply rendered_key in Hr as (a & props & -> & Ha & Hr).
  apply rendered_key in Hr as (b & sprops & Hsec & Hb & _).
  unfold handle, bind. rewrite (get_object _ _ _ _ Ha), Hsec.
  rewrite spread_with_ret, (own_props_object _ _ _ Hb).
  rewrite update_eq. cbn [heap calls].
  rewrite (own_props_object _ a props); [|by repeat apply lookup_old].
  rewrite <- app_assoc, !length_app. cbn [app length].
  eexists _, _. split; [reflexivity|]. cbn [heap calls].
  split; [reflexivity|]. split; [eauto|].
  exists (VString v). split; [reflexivity|].
  eapply edited_key; [done | | |].
  - rewrite lookup_fresh. reflexivity.
  - lia.
  - rewrite Hsec.
    eapply edited_key; [done | apply lookup_at_length | lia | reflexivity].
Qed.

Lemma handle_SectionLines section field sep index v content st :
  rendered (heap st) (path (SectionLines section field sep) index) content = true ->
  handled st content (SectionLines section field sep) index v
    (handle content (SectionLines section field sep) index v st).
Proof.
  intros Hr. apply rendered_key in Hr as (a & props & -> & Ha & Hr).
  apply rendered_key in Hr as (b & sprops & Hsec & Hb & _).
  unfold handle, bind. rewrite (get_object _ _ _ _ Ha), Hsec.
  rewrite spread_with_lines, (own_props_object _ _ _ Hb).
  rewrite update_eq. cbn [heap calls].
  rewrite (own_props_object _ a props); [|by repeat apply lookup_old].
  rewrite <- app_assoc, !length_app. cbn [app length].
  eexists _, _. split; [reflexivity|]. cbn [heap calls].
  split; [reflexivity|]. split; [eauto|].
  exists (VRef (length (heap st) + 2)). split.
  { eexists. split; [reflexivity|]. split; [lia|].
    rewrite lookup_fresh. reflexivity. }
  eapply edited_key; [done | | |].
  - rewrite lookup_fresh. reflexivity.
  - lia.
  - rewrite Hsec.
    eapply edited_key; [done | apply lookup_at_length | lia | reflexivity].
Qed.

Lemma handle_ItemField key field index v content st :
  rendered (heap st) (path (ItemField key field) index) content = true ->
  handled st content (ItemField key field) index v
    (handle content (ItemField key field) index v st).
Proof.
  intros Hr. apply rendered_key in Hr as (a & props & -> & Ha & Hr).
  apply rendered_index in Hr as (b & elems & item & Hitems & Hb & Hi & Hr).
  apply rendered_key in Hr as (c & iprops & -> & Hc & _).
  unfold handle, bind. rewrite (get_object _ _ _ _ Ha), Hitems.
  rewrite (item_at_array _ _ _ _ _ Hb Hi).
  rewrite spread_with_ret, (own_props_object _ _ _ Hc).
  rewrite (updateItem_array b elems);
    [|by apply lookup_old|by eapply lookup_lt_Some].
  rewrite update_eq. cbn [heap calls].
  rewrite <- !app_assoc. cbn [app].
  rewrite (own_props_object _ a props); [|by repeat apply lookup_old].
  eexists _, _. split; [reflexivity|]. cbn [heap calls].
  split; [reflexivity|]. split; [eauto|].
  exists (VString v). split; [reflexivity|].
  rewrite !length_app. cbn [length].
  eapply edited_key; [done | | |].
  - replace (length (heap st) + 1 + 1) with (length (heap st) + 2) by lia.
    rewrite lookup_fresh. reflexivity.
  - lia.
  - rewrite Hitems.
    eapply edited_index; [done | | | done |].
    + rewrite lookup_fresh. reflexivity.
    + lia.
    + eapply edited_key; [done | apply lookup_at_length | lia | reflexivity].
Qed.

Lemma handle_SectionItemField section key field index v content st :
  rendered (heap st) (path (SectionItemField section key field) index) content = true ->
  handled st content (SectionItemField section key field) index v
    (handle content (SectionItemField section key field) index v st).
Proof.
  intros Hr. apply rendered_key in Hr as (a & props & -> & Ha & Hr).
  apply rendered_key in Hr as (s & sprops & Hsec & Hs & Hr).
  apply rendered_index in Hr as (b & elems & item & Hitems & Hb & Hi & Hr).
  apply rendered_key in Hr as (c & iprops & -> & Hc & _).
  unfold handle, bind. rewrite (get_object _ _ _ _ Ha), Hsec.
  rewrite (get_object _ _ _ _ Hs), Hitems.
  rewrite (item_at_array _ _ _ _ _ Hb Hi).
  rewrite spread_with_ret, (own_props_object _ _ _ Hc).
  rewrite (updateItem_array b elems);
    [|by apply lookup_old|by eapply lookup_lt_Some].
  unfold bind. rewrite (get_object a section props); [|by do 2 apply lookup_old].
  rewrite Hsec, spread_with_ret. cbn [heap calls].
  rewrite (own_props_object _ s sprops); [|by do 2 apply lookup_old].
  rewrite update_eq. cbn [heap calls].
  rewrite (own_props_object _ a props); [|by do 3 apply lookup_old].
  rewrite <- !app_assoc. cbn [app].
  eexists _, _. split; [reflexivity|]. cbn [heap calls].
  split; [reflexivity|]. split; [eauto|].
  exists (VString v). split; [reflexivity|].
  rewrite !length_app. cbn [length].
  eapply edited_key; [done | | |].
  - replace (length (heap st) + 1 + 1 + 1) with (length (heap st) + 3) by lia.
    rewrite lookup_fresh. reflexivity.
  - lia.
  - rewrite Hsec. eapply edited_key; [done | | |].
    + replace (length (heap st) + 1 + 1) with (length (heap st) + 2) by lia.
      rewrite lookup_fresh. reflexivity.
    + lia.
    + rewrite Hitems.
      eapply edited_index; [done | | | done |].
      * rewrite lookup_fresh. reflexivity.
      * lia.
      * eapply edited_key; [done | apply lookup_at_length | lia | reflexivity].
Qed.

Lemma handle_handled hd index v content st :
  rendered (heap st) (path hd index) content = true ->
  handled st content hd index v (handle content hd index v st).
Proof.
  destruct hd.
  - apply handle_Field.
  - apply handle_SectionField.
  - apply handle_SectionLines.
  - apply handle_ItemField.
  - apply handle_SectionItemField.
Qed.

(** ** C8 *)

(** C8, as stated, fails: the handler of the mission paragraphs textarea of
    the home page editor, invoked with the text ["a"], stores a new array
    holding ["a"] in the field, not the text itself. *)
Lemma paragraphs_are_stored_as_lines :
  In (SectionLines "mission" "paragraphs" PARAGRAPHS) (handlers HomePageEditor) /\
  (exists st',
     handle (VRef 6) (SectionLines "mission" "paragraphs" PARAGRAPHS) 0 "a" home_state
       = Some (tt, st') /\
     calls st' = [VRef 10] /\
     heap st' !! 10 =
       Some (Object [("hero", VRef 0); ("features", VRef 5); ("mission", VRef 7)]) /\
     heap st' !! 7 =
       Some (Object [("heading", VString "Mission"); ("paragraphs", VRef 9)]) /\
     heap st' !! 9 = Some (Array [VString "a"])) /\
  ~ (forall e hd index v content st,
       In hd (handlers e) ->
       rendered (heap st) (path hd index) content = true ->
       exists doc st',
         handle content hd index v st = Some (tt, st') /\
         calls st' = calls st ++ [doc] /\
         edited (heap st) (heap st') (path hd index) (VString v) content doc).
Proof.
  split; [simpl; auto 20|]. split.
  { eexists. vm_compute. repeat split. }
  intros H.
  destruct (H HomePageEditor (SectionLines "mission" "paragraphs" PARAGRAPHS) 0 "a"
              (VRef 6) home_state) as (doc & st' & Hrun & Hcalls & Hed).
  { simpl; auto 20. }
  { reflexivity. }
  vm_compute in Hrun. injection Hrun as <-.
  cbn [calls heap app home_state] in Hcalls. injection Hcalls as <-.
  cbn [path edited heap home_state] in Hed.
  destruct Hed as (a & a' & props & props' & Ha & Ha' & _ & Hh & Hh' & _ & _ & Hed).
  injection Ha as <-. injection Ha' as <-.
  vm_compute in Hh, Hh'. injection Hh as <-. injection Hh' as <-.
  destruct Hed as (b & b' & sprops & sprops' & Hb & Hb' & _ & Hs & Hs' & _ & _ & Hed).
  vm_compute in Hb, Hb'. injection Hb as <-. injection Hb' as <-.
  vm_compute in Hs, Hs'. injection Hs as <-. injection Hs' as <-.
  vm_compute in Hed. discriminate Hed.
Qed.

(** C8, amended: for each of the four page editors, a change event with text
    [v] on any of its rendered controls calls [onChange] exactly once, with a
    new document that is the input document except at the one edited field;
    that field holds [v], or, for the five textareas of lines (mission
    paragraphs and attorney bullets of the home page, story paragraphs and
    attorney bio of the about page, the address of the contact page), a new
    array of the non-empty segments of [v] between separators.  Every other
    key and position along the way holds the value it held in the input
    document, and no object of the store is changed: the input document is
    not mutated. *)
Theorem editor_immutability
  (JSON_parse : string -> list Obj -> option (Val * list Obj))
  (pageKey : string) (content : Val) (hd : Handler) (index : nat) (v : string)
  (st : State) :
  select pageKey <> JsonEditor ->
  In hd (handlers (select pageKey)) ->
  rendered (heap st) (path hd index) content = true ->
  exists doc st',
    change JSON_parse pageKey content hd index v st = Some (tt, st') /\
    calls st' = calls st ++ [doc] /\
    (exists ext, heap st' = heap st ++ ext) /\
    exists x, stored_value (heap st) (heap st') hd v x /\
              edited (heap st) (heap st') (path hd index) x content doc.
Proof.
  intros Hsel _ Hr.
  assert (Hch : change JSON_parse pageKey content hd index v st
                = handle content hd index v st).
  { unfold change. destruct (select pageKey); done. }
  rewrite Hch. by apply handle_handled.
Qed.

Lemma editor_immutability_witness :
  select "/home" <> JsonEditor /\
  In (ItemField "features" "title") (handlers (select "/home")) /\
  rendered home_store (path (ItemField "features" "title") 1) (VRef 6) = true /\
  exists doc st',
    change parse_literal "/home" (VRef 6) (ItemField "features" "title") 1 "Verdicts"
      home_state = Some (tt, st') /\
    calls st' = [doc].
Proof.
  assert (H1 : select "/home" <> JsonEditor) by discriminate.
  assert (H2 : In (ItemField "features" "title") (handlers (select "/home"))).
  { simpl. auto 20. }
  split; [exact H1|]. split; [exact H2|]. split; [reflexivity|].
  destruct (editor_immutability parse_literal "/home" (VRef 6)
              (ItemField "features" "title") 1 "Verdicts" home_state H1 H2 eq_refl)
    as (doc & st' & Hrun & Hcalls & _).
  exists doc, st'. split; [exact Hrun | exact Hcalls].
Defined.

(** ** C9 *)

(** C9 (fallback parse-guard): in the raw JSON editor, a change event
    completes without an exception; if the text does not parse, [onChange] is
    not called and the store is as it was; if it parses, [onChange] is called
    once, with the parsed document; so [onChange] is called exactly when the
    text parses. *)
Theorem fallback_parse_guard
  (JSON_parse : string -> list Obj -> option (Val * list Obj))
  (pageKey : string) (content : Val) (hd : Handler) (index : nat) (text : string)
  (st : State) :
  select pageKey = JsonEditor ->
  exists st',
    change JSON_parse pageKey content hd index text st = Some (tt, st') /\
    (JSON_parse text (heap st) = None -> st' = st) /\
    (forall doc h', JSON_parse text (heap st) = Some (doc, h') ->
                    calls st' = calls st ++ [doc] /\ heap st' = h') /\
    (calls st' = calls st <-> JSON_parse text (heap st) = None).
Proof.
  intros Hsel. unfold change. rewrite Hsel. unfold json_onChange, onChange.
  destruct (JSON_parse text (heap st)) as [[doc h']|]; cbn [heap calls].
  - eexists. split; [reflexivity|]. cbn [heap calls].
    split; [discriminate|]. split.
    + intros doc0 h0 [= <- <-]. done.
    + split; [|discriminate]. intros Hc.
      apply (f_equal length) in Hc. rewrite length_app in Hc. simpl in Hc. lia.
  - exists st. split; [reflexivity|]. split; [done|]. split; [discriminate|done].
Qed.

Lemma fallback_parse_guard_witness :
  select "/blog" = JsonEditor /\
  parse_literal "{" home_store = None /\
  change parse_literal "/blog" (VRef 6) (Field "intro") 0 "{" home_state
    = Some (tt, home_state).
Proof.
  split; [reflexivity|]. split; [reflexivity|].
  destruct (fallback_parse_guard parse_literal "/blog" (VRef 6) (Field "intro") 0 "{"
              home_state eq_refl) as (st' & Hrun & Hnone & _).
  rewrite <- (Hnone eq_refl) at 2. exact Hrun.
Defined.

End EditorHandlers.

(* ===================================================================== *)
(** * Further properties of the row mapping *)
(* ===================================================================== *)

Section RowMappingMore.
Import SiteSettingsTypes.
Local Open Scope list_scope.

Lemma or_string_or_null x : or_string (or_null x) "" = x.
Proof. unfold or_null. destruct x; reflexivity. Qed.

Lemma or_string_text x d : truthy x = true -> or_string (Some x) d = x.
Proof. intros H. simpl. by rewrite H. Qed.

Lemma or_string_truthy v d : truthy d = true -> truthy (or_string v d) = true.
Proof. intros Hd. destruct v as [x|]; simpl; [|done]. by destruct (truthy x) eqn:E. Qed.

Lemma nonempty_or_items {A : Type} (l d : list A) :
  Nat.eqb (length l) 0 = false -> nonempty_or (Some l) d = l.
Proof. destruct l; [discriminate | reflexivity]. Qed.

Lemma or_null_inj x y : or_null x = or_null y -> x = y.
Proof.
  unfold or_null. destruct x, y; simpl; congruence.
Qed.

Lemma text_columns_all c : In c text_columns.
Proof. unfold text_columns. destruct c; simpl; auto 20. Qed.

Lemma rowToSiteSettings_text (row : SiteSettingsRow) (c : TextColumn) :
  cleared_when_empty c = false -> truthy (text_of c (rowToSiteSettings row)) = true.
Proof. destruct c; try discriminate; intros _; simpl; by apply or_string_truthy. Qed.

Lemma rowToSiteSettings_complete (row : SiteSettingsRow) :
  complete (rowToSiteSettings row) = true.
Proof.
  unfold complete. rewrite !andb_true_iff. repeat split.
  - apply forallb_forall. intros c _.
    destruct (cleared_when_empty c) eqn:E; [done|]. by apply rowToSiteSettings_text.
  - simpl. by destruct (navigation_items row) as [[|]|].
  - simpl. by destruct (footer_about_links row) as [[|]|].
  - simpl. by destruct (footer_practice_links row) as [[|]|].
  - simpl. by destruct (social_links row) as [[|]|].
Qed.

(** A row that holds what [siteSettingsToRow s] writes reads back as [s]. *)
Lemma read_back (s : SiteSettings) (row : SiteSettingsRow) :
  complete s = true -> carries row (siteSettingsToRow s) -> rowToSiteSettings row = s.
Proof.
  unfold complete. rewrite !andb_true_iff, forallb_forall.
  intros [[[[Htext Hn] Hfa] Hfp] Hs] (Hcol & Hb1 & Hb2 & Hl1 & Hl2 & Hl3 & Hl4).
  apply negb_true_iff in Hn, Hfa, Hfp, Hs.
  assert (Ht : forall c, cleared_when_empty c = false -> truthy (text_of c s) = true).
  { intros c Hc. specialize (Htext c (text_columns_all c)). by rewrite Hc in Htext. }
  assert (Hst : forall c, stored c row =
            if cleared_when_empty c then or_null (text_of c s) else Some (text_of c s)).
  { intros c. specialize (Hcol c). destruct c; simpl in *; congruence. }
  destruct Hb1 as (b1 & Hb1 & [= <-]). destruct Hb2 as (b2 & Hb2 & [= <-]).
  destruct Hl1 as (l1 & Hl1 & [= <-]). destruct Hl2 as (l2 & Hl2 & [= <-]).
  destruct Hl3 as (l3 & Hl3 & [= <-]). destruct Hl4 as (l4 & Hl4 & [= <-]).
  pose proof (Hst Logo_url) as E1. pose proof (Hst Logo_alt) as E2.
  pose proof (Hst Phone_number) as E3. pose proof (Hst Phone_display) as E4.
  pose proof (Hst Phone_availability) as E5. pose proof (Hst Header_cta_text) as E6.
  pose proof (Hst Header_cta_url) as E7. pose proof (Hst Address_line1) as E8.
  pose proof (Hst Address_line2) as E9. pose proof (Hst Map_embed_url) as E10.
  pose proof (Hst Copyright_text) as E11. pose proof (Hst Ga4_measurement_id) as E12.
  pose proof (Hst Google_ads_id) as E13.
  pose proof (Hst Google_ads_conversion_label) as E14.
  pose proof (Hst Head_scripts) as E15. pose proof (Hst Footer_scripts) as E16.
  pose proof (Hst Site_name) as E17.
  pose proof (Ht Logo_url eq_refl) as T1. pose proof (Ht Logo_alt eq_refl) as T2.
  pose proof (Ht Phone_number eq_refl) as T3. pose proof (Ht Phone_display eq_refl) as T4.
  pose proof (Ht Phone_availability eq_refl) as T5.
  pose proof (Ht Header_cta_text eq_refl) as T6.
  pose proof (Ht Header_cta_url eq_refl) as T7.
  pose proof (Ht Address_line1 eq_refl) as T8. pose proof (Ht Address_line2 eq_refl) as T9.
  pose proof (Ht Map_embed_url eq_refl) as T10.
  pose proof (Ht Copyright_text eq_refl) as T11. pose proof (Ht Site_name eq_refl) as T17.
  clear Hst Ht Htext Hcol.
  cbn [stored cleared_when_empty text_of] in *.
  unfold rowToSiteSettings.
  rewrite E1, E2, E3, E4, E5, E6, E7, E8, E9, E10, E11, E12, E13, E14, E15, E16, E17.
  rewrite Hb1, Hb2, Hl1, Hl2, Hl3, Hl4.
  rewrite !or_string_or_null.
  rewrite !or_string_text by assumption.
  rewrite !nonempty_or_items by assumption.
  destruct s; reflexivity.
Qed.

(** X11: [rowToSiteSettings] never yields an empty string in a text field that
    has a default. *)
Theorem defaulted_text_is_never_empty (row : SiteSettingsRow) (c : TextColumn) :
  cleared_when_empty c = false -> text_of c (rowToSiteSettings row) <> "".
Proof.
  intros Hc E. pose proof (rowToSiteSettings_text row c Hc) as H.
  rewrite E in H. discriminate.
Qed.

Lemma defaulted_text_is_never_empty_witness :
  cleared_when_empty Site_name = false /\
  text_of Site_name (rowToSiteSettings unnamed_row) <> "".
Proof.
  split; [reflexivity|].
  exact (defaulted_text_is_never_empty unnamed_row Site_name eq_refl).
Defined.

(** X12: settings whose defaulted text fields and sequences are not empty come
    back unchanged from a row that holds what [siteSettingsToRow] wrote. *)
Theorem settings_round_trip (s : SiteSettings) (row : SiteSettingsRow) :
  complete s = true -> carries row (siteSettingsToRow s) -> rowToSiteSettings row = s.
Proof. apply read_back. Qed.

Lemma named_row_carries :
  carries named_row (siteSettingsToRow (rowToSiteSettings named_row)).
Proof.
  split; [intros c; destruct c; reflexivity|].
  repeat split; eexists; split; reflexivity.
Qed.

Lemma settings_round_trip_witness :
  complete (rowToSiteSettings named_row) = true /\
  rowToSiteSettings named_row = rowToSiteSettings named_row.
Proof.
  split; [reflexivity|].
  exact (settings_round_trip (rowToSiteSettings named_row) named_row eq_refl
           named_row_carries).
Defined.

(** X13: reading a row, writing the settings back and reading again gives the
    settings of the first read. *)
Theorem read_write_read (row row' : SiteSettingsRow) :
  carries row' (siteSettingsToRow (rowToSiteSettings row)) ->
  rowToSiteSettings row' = rowToSiteSettings row.
Proof. apply read_back, rowToSiteSettings_complete. Qed.

(** A row that holds what is written back for the row without a site name:
    its site name is the default one. *)
Lemma named_row_carries_unnamed :
  carries
    {| id := "1"; settings_key := "global"; logo_url := logo_url unnamed_row;
       logo_alt := logo_alt unnamed_row; phone_number := phone_number unnamed_row;
       phone_display := phone_display unnamed_row;
       phone_availability := phone_availability unnamed_row;
       apply_phone_globally := apply_phone_globally unnamed_row;
       header_cta_text := header_cta_text unnamed_row;
       header_cta_url := header_cta_url unnamed_row;
       navigation_items := navigation_items unnamed_row;
       footer_about_links := footer_about_links unnamed_row;
       footer_practice_links := footer_practice_links unnamed_row;
       address_line1 := address_line1 unnamed_row;
       address_line2 := address_line2 unnamed_row;
       map_embed_url := map_embed_url unnamed_row;
       social_links := social_links unnamed_row;
       copyright_text := copyright_text unnamed_row;
       site_noindex := site_noindex unnamed_row;
       ga4_measurement_id := ga4_measurement_id unnamed_row;
       google_ads_id := google_ads_id unnamed_row;
       google_ads_conversion_label := google_ads_conversion_label unnamed_row;
       head_scripts := head_scripts unnamed_row;
       footer_scripts := footer_scripts unnamed_row;
       site_name := Some "Silva Trial Lawyers";
       updated_at := "2026-02-02T00:00:00Z"; updated_by := None |}
    (siteSettingsToRow (rowToSiteSettings unnamed_row)).
Proof.
  split; [intros c; destruct c; reflexivity|].
  repeat split; eexists; split; reflexivity.
Qed.

Lemma read_write_read_witness :
  siteName (rowToSiteSettings unnamed_row) = "Silva Trial Lawyers" /\
  exists row', carries row' (siteSettingsToRow (rowToSiteSettings unnamed_row)) /\
               rowToSiteSettings row' = rowToSiteSettings unnamed_row.
Proof.
  split; [reflexivity|].
  eexists. split; [exact named_row_carries_unnamed|].
  exact (read_write_read unnamed_row _ named_row_carries_unnamed).
Defined.

(** X14: [siteSettingsToRow] loses nothing: settings written alike are equal. *)
Theorem siteSettingsToRow_injective (s1 s2 : SiteSettings) :
  siteSettingsToRow s1 = siteSettingsToRow s2 -> s1 = s2.
Proof.
  destruct s1, s2. unfold siteSettingsToRow. cbn.
  intros H. injection H as H1 H2 H3 H4 H5 H6 H7 H8 H9 H10 H11 H12 H13 H14 H15 H16
    H17 H18 H19 H20 H21 H22 H23.
  apply or_null_inj in H18, H19, H20, H21, H22. by subst.
Qed.
Lemma siteSettingsToRow_injective_witness :
  siteSettingsToRow settings_without_logo = siteSettingsToRow settings_without_logo /\
  settings_without_logo = settings_without_logo.
Proof.
  split; [reflexivity|].
  exact (siteSettingsToRow_injective settings_without_logo settings_without_logo
           eq_refl).
Defined.

End RowMappingMore.

(* ===================================================================== *)
(** * Invariants of the settings cache *)
(* ===================================================================== *)

Section CacheInvariants.
Import SiteSettingsTypes UseSiteSettings.

Variable DEFAULT_SITE_SETTINGS : SiteSettings.
Variable rowToSiteSettings : SiteSettingsRow -> SiteSettings.

Local Open Scope list_scope.
Local Set Warnings "-notation-for-abbreviation".
Notation fetch_body := (UseSiteSettings.fetch_body DEFAULT_SITE_SETTINGS rowToSiteSettings).
Notation mount := (UseSiteSettings.mount DEFAULT_SITE_SETTINGS).
Notation respond := (UseSiteSettings.respond DEFAULT_SITE_SETTINGS rowToSiteSettings).
Notation deliver := (UseSiteSettings.deliver DEFAULT_SITE_SETTINGS).
Notation step := (UseSiteSettings.step DEFAULT_SITE_SETTINGS rowToSiteSettings).
Notation run := (UseSiteSettings.run DEFAULT_SITE_SETTINGS rowToSiteSettings).
Notation starter := (UseSiteSettings.starter DEFAULT_SITE_SETTINGS).
Notation joiner := (UseSiteSettings.joiner DEFAULT_SITE_SETTINGS).
Notation resolved := (UseSiteSettings.resolved DEFAULT_SITE_SETTINGS).
Notation mounted := (UseSiteSettings.mounted DEFAULT_SITE_SETTINGS).
Notation evolves := (UseSiteSettings.evolves DEFAULT_SITE_SETTINGS).
Notation consistent := (UseSiteSettings.consistent DEFAULT_SITE_SETTINGS).

(** ** What one event does to the world *)

Lemma mount_eq w :
  mount w = {|
    settingsCache := settingsCache w;
    fetchPromise :=
      match settingsCache w, fetchPromise w with
      | None, None => Some (length (promises w))
      | _, _ => fetchPromise w
      end;
    promises :=
      match settingsCache w, fetchPromise w with
      | None, None => promises w ++ [Pending]
      | _, _ => promises w
      end;
    hooks := hooks w ++ [mounted w];
    requests :=
      match settingsCache w, fetchPromise w with
      | None, None => S (requests w)
      | _, _ => requests w
      end
  |}.
Proof.
  unfold UseSiteSettings.mount, fetchSettings, render, UseSiteSettings.mounted.
  destruct (settingsCache w) as [s|]; [reflexivity|].
  destruct (fetchPromise w) as [p|]; reflexivity.
Qed.

(** An event leaves a hook where it is and changes it in one of four ways;
    only [Mount] adds a hook, at the end. *)
Lemma step_hooks w e j h' :
  hooks (step w e) !! j = Some h' ->
  (exists h, hooks w !! j = Some h /\ evolves w h h') \/
  (e = Mount /\ j = length (hooks w) /\ h' = mounted w).
Proof.
  destruct e as [| p o | i | i |]; cbn [UseSiteSettings.step].
  - rewrite mount_eq. cbn [hooks]. intros H.
    apply lookup_app_Some in H as [H | [Hj H]].
    + left. exists h'. split; [done | constructor].
    + right. destruct (j - length (hooks w)) as [|n] eqn:E; [|done].
      injection H as <-. split; [done|]. split; [lia | done].
  - intros H. left. exists h'. split; [|constructor].
    unfold UseSiteSettings.respond in H.
    destruct (promises w !! p) as [[| |]|]; exact H.
  - unfold UseSiteSettings.deliver.
    destruct (hooks w !! i) as [h|] eqn:Hi;
      [|intros H; left; exists h'; split; [done | constructor]].
    destruct (awaiting h) as [| p | p] eqn:Ha;
      [intros H; left; exists h'; split; [done | constructor] | |].
    + destruct (promises w !! p) as [st|] eqn:Hp;
        [|intros H; left; exists h'; split; [done | constructor]].
      assert (Hcase : st = Pending \/ st <> Pending)
        by (destruct st; [left | right | right]; congruence).
      destruct Hcase as [-> | Hst];
        [intros H; left; exists h'; split; [done | constructor]|].
      intros H. left.
      assert (H' : <[i := resume_started DEFAULT_SITE_SETTINGS h st]> (hooks w) !! j
                   = Some h') by (destruct st; [done | exact H | exact H]).
      destruct (decide (i = j)) as [<- | Hne].
      * rewrite list_lookup_insert_eq in H' by (by eapply lookup_lt_Some).
        injection H' as <-. exists h. split; [done|]. by econstructor.
      * rewrite list_lookup_insert_ne in H' by done.
        exists h'. split; [done | constructor].
    + destruct (promises w !! p) as [st|] eqn:Hp;
        [|intros H; left; exists h'; split; [done | constructor]].
      assert (Hcase : st = Pending \/ st <> Pending)
        by (destruct st; [left | right | right]; congruence).
      destruct Hcase as [-> | Hst];
        [intros H; left; exists h'; split; [done | constructor]|].
      intros H. left.
      assert (H' : <[i := resume_joined h st]> (hooks w) !! j = Some h')
        by (destruct st; [done | exact H | exact H]).
      destruct (decide (i = j)) as [<- | Hne].
      * rewrite list_lookup_insert_eq in H' by (by eapply lookup_lt_Some).
        injection H' as <-. exists h. split; [done|]. by econstructor.
      * rewrite list_lookup_insert_ne in H' by done.
        exists h'. split; [done | constructor].
  - unfold UseSiteSettings.unmount.
    destruct (hooks w !! i) as [h|] eqn:Hi;
      [|intros H; left; exists h'; split; [done | constructor]].
    cbn [set_hook hooks]. intros H. left.
    destruct (decide (i = j)) as [<- | Hne].
    + rewrite list_lookup_insert_eq in H by (by eapply lookup_lt_Some).
      injection H as <-. exists h. split; [done | apply evolves_unmounted].
    + rewrite list_lookup_insert_ne in H by done.
      exists h'. split; [done | constructor].
  - intros H. left. exists h'. split; [done | constructor].
Qed.

(** A hook that is there stays there. *)
Lemma step_hooks_old w e j h :
  hooks w !! j = Some h -> exists h', hooks (step w e) !! j = Some h' /\ evolves w h h'.
Proof.
  intros Hj.
  assert (Hlen : length (hooks w) <= length (hooks (step w e))).
  { destruct e as [| p o | i | i |]; cbn [UseSiteSettings.step].
    - rewrite mount_eq. cbn [hooks]. rewrite length_app. lia.
    - unfold UseSiteSettings.respond. destruct (promises w !! p) as [[| |]|]; done.
    - unfold UseSiteSettings.deliver. destruct (hooks w !! i) as [h0|]; [|done].
      destruct (awaiting h0) as [| p | p]; [done | |];
        destruct (promises w !! p) as [[| |]|]; cbn [set_hook hooks];
        rewrite ?length_insert; done.
    - unfold UseSiteSettings.unmount. destruct (hooks w !! i) as [h0|]; [|done].
      cbn [set_hook hooks]. rewrite length_insert. done.
    - done. }
  destruct (hooks (step w e) !! j) as [h'|] eqn:E.
  - exists h'. split; [done|].
    destruct (step_hooks w e j h' E) as [(h0 & Hh0 & Hev) | (_ & Hlast & _)].
    + congruence.
    + apply lookup_lt_Some in Hj. lia.
  - apply lookup_ge_None in E. apply lookup_lt_Some in Hj. lia.
Qed.
Lemma unsettled st : st = Pending \/ st <> Pending.
Proof. destruct st; [left | right | right]; congruence. Qed.

Lemma step_cache w e s :
  settingsCache (step w e) = Some s ->
  settingsCache w = Some s \/ exists p, promises w !! p = Some (Fulfilled s).
Proof.
  destruct e as [| p o | i | i |]; cbn [UseSiteSettings.step].
  - rewrite mount_eq. cbn [settingsCache]. auto.
  - unfold UseSiteSettings.respond.
    destruct (promises w !! p) as [[| |]|]; cbn [settingsCache]; auto.
  - unfold UseSiteSettings.deliver. destruct (hooks w !! i) as [h|]; [|auto].
    destruct (awaiting h) as [| p | p]; [auto | |];
      destruct (promises w !! p) as [[| r |]|] eqn:Hp; cbn [set_hook settingsCache];
      auto.
    intros [= <-]. eauto.
  - unfold UseSiteSettings.unmount. destruct (hooks w !! i) as [h|]; auto.
  - discriminate.
Qed.

Lemma step_promises w e p st :
  promises (step w e) !! p = Some st ->
  promises w !! p = Some st \/
  (promises w !! p = Some Pending /\ exists o, st = fetch_body o) \/
  (e = Mount /\ st = Pending /\ p = length (promises w) /\
   settingsCache w = None /\ fetchPromise w = None).
Proof.
  destruct e as [| q o | i | i |]; cbn [UseSiteSettings.step].
  - rewrite mount_eq. cbn [promises].
    destruct (settingsCache w) as [s|]; [auto|].
    destruct (fetchPromise w) as [f|]; [auto|].
    intros H. apply lookup_app_Some in H as [H | [Hp H]]; [auto|].
    right. right. destruct (p - length (promises w)) as [|n] eqn:E; [|done].
    injection H as <-. repeat split; try done. lia.
  - unfold UseSiteSettings.respond.
    destruct (promises w !! q) as [[| |]|] eqn:Hq; cbn [promises]; auto.
    intros H. destruct (decide (q = p)) as [<- | Hne].
    + rewrite list_lookup_insert_eq in H by (by eapply lookup_lt_Some).
      injection H as <-. right. left. eauto.
    + rewrite list_lookup_insert_ne in H by done. auto.
  - unfold UseSiteSettings.deliver. destruct (hooks w !! i) as [h|]; [|auto].
    destruct (awaiting h) as [| q | q]; [auto | |];
      destruct (promises w !! q) as [[| |]|]; cbn [set_hook promises]; auto.
  - unfold UseSiteSettings.unmount. destruct (hooks w !! i) as [h|]; auto.
  - cbn [clearSiteSettingsCache promises]. auto.
Qed.

(** A promise that has settled keeps its state. *)
Lemma step_promises_settled w e p st :
  promises w !! p = Some st -> st <> Pending -> promises (step w e) !! p = Some st.
Proof.
  intros Hp Hst. destruct e as [| q o | i | i |]; cbn [UseSiteSettings.step].
  - rewrite mount_eq. cbn [promises].
    destruct (settingsCache w); [done|]. destruct (fetchPromise w); [done|].
    by apply lookup_app_l_Some.
  - unfold UseSiteSettings.respond.
    destruct (promises w !! q) as [[| |]|] eqn:Hq; cbn [promises]; try done.
    rewrite list_lookup_insert_ne; [done|]. intros ->. congruence.
  - unfold UseSiteSettings.deliver. destruct (hooks w !! i) as [h|]; [|done].
    destruct (awaiting h) as [| q | q]; [done | |];
      destruct (promises w !! q) as [[| |]|]; cbn [set_hook promises]; done.
  - unfold UseSiteSettings.unmount. destruct (hooks w !! i) as [h|]; done.
  - done.
Qed.

Lemma fetch_body_fulfilled o s :
  fetch_body o = Fulfilled s ->
  s = DEFAULT_SITE_SETTINGS \/ exists row, s = rowToSiteSettings row.
Proof.
  destruct o as [err | status [err | [v | [| [row|] elems]]]]; simpl;
    try destruct (response_ok status); simpl; intros [= <-]; eauto.
Qed.

Lemma run_snoc es e w : run (es ++ [e]) w = step (run es w) e.
Proof. unfold UseSiteSettings.run. apply foldl_snoc. Qed.

(** ** The hooks' view *)

Lemma mounted_consistent w : consistent (mounted w).
Proof.
  unfold UseSiteSettings.mounted. destruct (settingsCache w) as [s|]; [|destruct (fetchPromise w)];
    split; cbn; try done; intros H; try done.
Qed.

Lemma evolves_consistent w h h' : consistent h -> evolves w h h' -> consistent h'.
Proof.
  intros [Hw Hr He] Hev. destruct Hev as [| p st Ha Hp Hst | p st Ha Hp Hst |].
  - by split.
  - destruct (Hw ltac:(congruence)) as (Hl & Hs & Herr).
    destruct st as [| r | err]; [done | |]; cbn; destruct (isMounted h) eqn:Hm;
      split; cbn; try done; try congruence.
  - destruct (Hw ltac:(congruence)) as (Hl & Hs & Herr).
    destruct st as [| r | err]; [done | |]; cbn; destruct (isMounted h) eqn:Hm;
      split; cbn; try done; try congruence.
  - split; cbn; try done.
Qed.

Lemma run_consistent es w :
  (forall i h, hooks w !! i = Some h -> consistent h) ->
  forall i h, hooks (run es w) !! i = Some h -> consistent h.
Proof.
  induction es as [|e es IH] using rev_ind; [done|].
  intros Hw i h. rewrite run_snoc. intros Hi.
  destruct (step_hooks _ _ _ _ Hi) as [(h0 & Hh0 & Hev) | (_ & _ & ->)].
  - eapply evolves_consistent; [|exact Hev]. by eapply IH.
  - apply mounted_consistent.
Qed.

(** ** Where the settings values come from *)

Lemma evolves_settings (P : SiteSettings -> Prop) w h h' :
  P DEFAULT_SITE_SETTINGS ->
  (forall p s, promises w !! p = Some (Fulfilled s) -> P s) ->
  P (settings h) -> evolves w h h' -> P (settings h').
Proof.
  intros Hd Hps Hh Hev. destruct Hev as [| p st Ha Hp Hst | p st Ha Hp Hst |].
  - done.
  - destruct st as [| r | err]; [done | |]; cbn; destruct (isMounted h); cbn; eauto.
  - destruct st as [| r | err]; [done | |]; cbn; destruct (isMounted h); cbn; eauto.
  - done.
Qed.

Lemma step_settings_all (P : SiteSettings -> Prop) w e :
  P DEFAULT_SITE_SETTINGS -> (forall row, P (rowToSiteSettings row)) ->
  settings_all P w -> settings_all P (step w e).
Proof.
  intros Hd Hr [Hc Hp Hh]. split.
  - intros s Hs. destruct (step_cache _ _ _ Hs) as [H | [p H]]; eauto.
  - intros p s Hs.
    destruct (step_promises _ _ _ _ Hs) as [H | [(_ & o & Ho) | (_ & H & _)]];
      [eauto | | done].
    symmetry in Ho. destruct (fetch_body_fulfilled _ _ Ho) as [-> | [row ->]]; done.
  - intros i h Hi.
    destruct (step_hooks _ _ _ _ Hi) as [(h0 & Hh0 & Hev) | (_ & _ & ->)].
    + eapply evolves_settings; eauto.
    + unfold UseSiteSettings.mounted. destruct (settingsCache w) as [s|] eqn:Hs; [cbn; eauto|].
      destruct (fetchPromise w); done.
Qed.

Lemma run_settings_all (P : SiteSettings -> Prop) es :
  P DEFAULT_SITE_SETTINGS -> (forall row, P (rowToSiteSettings row)) ->
  settings_all P (run es initial).
Proof.
  intros Hd Hr. induction es as [|e es IH] using rev_ind.
  - split; cbn; intros; done.
  - rewrite run_snoc. by apply step_settings_all.
Qed.

Lemma run_sourced es : sourced (run es initial).
Proof.
  induction es as [|e es IH] using rev_ind; [intros s; cbn; done|].
  rewrite run_snoc. intros s Hs.
  destruct (step_cache _ _ _ Hs) as [H | [p H]].
  - destruct (IH s H) as [p Hp]. exists p. by apply step_promises_settled.
  - exists p. by apply step_promises_settled.
Qed.

(** ** One fetch in flight *)

Lemma step_in_flight w e : is_clear e = false -> in_flight w -> in_flight (step w e).
Proof.
  intros He [Hpend Hst Hone Hreq].
  destruct e as [| q o | i | i |]; cbn [UseSiteSettings.step]; [| | | |done].
  - (* Mount *)
    rewrite mount_eq. unfold UseSiteSettings.mounted.
    destruct (settingsCache w) as [s|] eqn:Hc; [|destruct (fetchPromise w) as [f|] eqn:Hf].
    + split; cbn [promises hooks fetchPromise requests]; try done.
      * intros j h p Hj Ha. apply lookup_app_Some in Hj as [Hj | [_ Hj]]; [eauto|].
        destruct (j - length (hooks w)); [|done]. by injection Hj as <-.
      * intros j k h h' p q Hj Ha Hk Ha'.
        apply lookup_app_Some in Hj as [Hj | [_ Hj]];
          [|destruct (j - length (hooks w)); [by injection Hj as <- | done]].
        apply lookup_app_Some in Hk as [Hk | [_ Hk]];
          [|destruct (k - length (hooks w)); [by injection Hk as <- | done]].
        eauto.
    + split; cbn [promises hooks fetchPromise requests]; try done.
      * intros j h p Hj Ha. apply lookup_app_Some in Hj as [Hj | [_ Hj]]; [eauto|].
        destruct (j - length (hooks w)); [|done]. by injection Hj as <-.
      * intros j k h h' p q Hj Ha Hk Ha'.
        apply lookup_app_Some in Hj as [Hj | [_ Hj]];
          [|destruct (j - length (hooks w)); [by injection Hj as <- | done]].
        apply lookup_app_Some in Hk as [Hk | [_ Hk]];
          [|destruct (k - length (hooks w)); [by injection Hk as <- | done]].
        eauto.
    + assert (Hnone : forall j h p, hooks w !! j = Some h -> awaiting h <> Started p).
      { intros j h p Hj Ha. specialize (Hst _ _ _ Hj Ha). congruence. }
      split; cbn [promises hooks fetchPromise requests].
      * intros p Hp. apply lookup_app_Some in Hp as [Hp | [Hge Hp]].
        -- specialize (Hpend _ Hp). congruence.
        -- destruct (p - length (promises w)) eqn:E; [|done]. f_equal. lia.
      * intros j h p Hj Ha. apply lookup_app_Some in Hj as [Hj | [_ Hj]].
        -- exfalso. by eapply (Hnone _ _ _ Hj).
        -- destruct (j - length (hooks w)); [|done]. injection Hj as <-.
           cbn in Ha. congruence.
      * intros j k h h' p q Hj Ha Hk Ha'.
        apply lookup_app_Some in Hj as [Hj | [Hgj Hj]];
          [exfalso; by eapply (Hnone _ _ _ Hj)|].
        apply lookup_app_Some in Hk as [Hk | [Hgk Hk]];
          [exfalso; by eapply (Hnone _ _ _ Hk)|].
        destruct (j - length (hooks w)) eqn:Ej; [|done].
        destruct (k - length (hooks w)) eqn:Ek; [|done]. lia.
      * rewrite length_app. cbn. lia.
  - (* Respond *)
    unfold UseSiteSettings.respond.
    destruct (promises w !! q) as [[| |]|] eqn:Hq; try by split.
    split; cbn [promises hooks fetchPromise requests]; try done.
    + intros p Hp. destruct (decide (q = p)) as [<- | Hne].
      * rewrite list_lookup_insert_eq in Hp by (by eapply lookup_lt_Some).
        injection Hp as Hp. by apply fetch_body_settled in Hp.
      * rewrite list_lookup_insert_ne in Hp by done. eauto.
    + by rewrite length_insert.
  - (* Deliver *)
    unfold UseSiteSettings.deliver.
    destruct (hooks w !! i) as [h|] eqn:Hi; [|by split].
    destruct (awaiting h) as [| p | p] eqn:Ha; [by split | |].
    + destruct (promises w !! p) as [st|] eqn:Hp; [|by split].
      destruct (unsettled st) as [-> | Hsettled]; [by split|].
      assert (Hret : awaiting (resume_started DEFAULT_SITE_SETTINGS h st) = Returned).
      { destruct st; [done | |]; cbn; destruct (isMounted h); done. }
      assert (Hw : in_flight {|
        settingsCache :=
          match st with Fulfilled result => Some result | _ => settingsCache w end;
        fetchPromise := None; promises := promises w;
        hooks := <[i := resume_started DEFAULT_SITE_SETTINGS h st]> (hooks w);
        requests := requests w |}).
      { split; cbn [promises hooks fetchPromise requests]; try done.
        - intros q Hq. pose proof (Hpend _ Hq) as H1.
          pose proof (Hst _ _ _ Hi Ha) as H2. congruence.
        - intros j h0 q Hj Ha0. destruct (decide (i = j)) as [<- | Hne].
          + rewrite list_lookup_insert_eq in Hj by (by eapply lookup_lt_Some).
            injection Hj as <-. congruence.
          + rewrite list_lookup_insert_ne in Hj by done.
            exfalso. apply Hne. eapply Hone; eauto.
        - intros j k h0 h1 q r Hj Ha0 Hk Ha1. destruct (decide (i = j)) as [<- | Hne].
          + rewrite list_lookup_insert_eq in Hj by (by eapply lookup_lt_Some).
            injection Hj as <-. congruence.
          + rewrite list_lookup_insert_ne in Hj by done.
            exfalso. apply Hne. eapply Hone; eauto. }
      destruct Hw as [H1 H2 H3 H4].
      destruct st; [done | |]; split; done.
    + destruct (promises w !! p) as [st|] eqn:Hp; [|by split].
      destruct (unsettled st) as [-> | Hsettled]; [by split|].
      assert (Hret : awaiting (resume_joined h st) = Returned).
      { destruct st; [done | |]; cbn; destruct (isMounted h); done. }
      assert (Hw : in_flight (set_hook i (resume_joined h st) w)).
      { split; cbn [set_hook promises hooks fetchPromise requests]; try done.
        - intros j h0 q Hj Ha0. destruct (decide (i = j)) as [<- | Hne].
          + rewrite list_lookup_insert_eq in Hj by (by eapply lookup_lt_Some).
            injection Hj as <-. congruence.
          + rewrite list_lookup_insert_ne in Hj by done. eauto.
        - intros j k h0 h1 q r Hj Ha0 Hk Ha1.
          destruct (decide (i = j)) as [<- | Hne].
          { rewrite list_lookup_insert_eq in Hj by (by eapply lookup_lt_Some).
            injection Hj as <-. congruence. }
          destruct (decide (i = k)) as [<- | Hne'].
          { rewrite list_lookup_insert_eq in Hk by (by eapply lookup_lt_Some).
            injection Hk as <-. congruence. }
          rewrite list_lookup_insert_ne in Hj, Hk by done. eauto. }
      destruct st; [done | |]; exact Hw.
  - (* Unmount *)
    unfold UseSiteSettings.unmount.
    destruct (hooks w !! i) as [h|] eqn:Hi; [|by split].
    split; cbn [set_hook promises hooks fetchPromise requests]; try done.
    + intros j h0 q Hj Ha0. destruct (decide (i = j)) as [<- | Hne].
      * rewrite list_lookup_insert_eq in Hj by (by eapply lookup_lt_Some).
        injection Hj as <-. cbn in Ha0. eauto.
      * rewrite list_lookup_insert_ne in Hj by done. eauto.
    + intros j k h0 h1 q r Hj Ha0 Hk Ha1.
      assert (Hj' : exists h2, hooks w !! j = Some h2 /\ awaiting h2 = Started q).
      { destruct (decide (i = j)) as [<- | Hne].
        - rewrite list_lookup_insert_eq in Hj by (by eapply lookup_lt_Some).
          injection Hj as <-. eauto.
        - rewrite list_lookup_insert_ne in Hj by done. eauto. }
      assert (Hk' : exists h2, hooks w !! k = Some h2 /\ awaiting h2 = Started r).
      { destruct (decide (i = k)) as [<- | Hne].
        - rewrite list_lookup_insert_eq in Hk by (by eapply lookup_lt_Some).
          injection Hk as <-. eauto.
        - rewrite list_lookup_insert_ne in Hk by done. eauto. }
      destruct Hj' as (? & ? & ?), Hk' as (? & ? & ?). eauto.
Qed.

Lemma run_in_flight es w :
  no_clear es = true -> in_flight w -> in_flight (run es w).
Proof.
  revert w. induction es as [|e es IH]; intros w Hes Hw; [done|].
  cbn in Hes. apply andb_true_iff in Hes as [He Hes]. apply negb_true_iff in He.
  apply (IH (step w e)); [done|]. by apply step_in_flight.
Qed.

Lemma initial_in_flight : in_flight initial.
Proof. split; cbn; intros; done. Qed.

(** ** Properties of the cache over all event sequences *)

(** X1: without an invalidation, at most one fetch is in flight at any time, and
    every promise created stands for exactly one request issued. *)
Theorem one_fetch_in_flight es :
  no_clear es = true ->
  let w := run es initial in
  (forall p q, promises w !! p = Some Pending -> promises w !! q = Some Pending ->
               p = q) /\
  (forall p, promises w !! p = Some Pending -> fetchPromise w = Some p) /\
  requests w = length (promises w).
Proof.
  intros Hes w.
  destruct (run_in_flight es initial Hes initial_in_flight) as [Hpend _ _ Hreq].
  fold w in Hpend, Hreq. split; [|by split].
  intros p q Hp Hq. pose proof (Hpend _ Hp). pose proof (Hpend _ Hq). congruence.
Qed.

(** X2: whatever happens, a value in the cached-value slot is the result of a
    fetch that succeeded: a failure is never cached. *)
Theorem cache_holds_a_fetched_value es s :
  settingsCache (run es initial) = Some s ->
  exists p, promises (run es initial) !! p = Some (Fulfilled s).
Proof. apply run_sourced. Qed.

Lemma evolves_unmounted_same w h h' :
  isMounted h = false -> evolves w h h' ->
  settings h' = settings h /\ isLoading h' = isLoading h /\ error h' = error h /\
  isMounted h' = false.
Proof.
  intros Hm Hev. destruct Hev as [| p st Ha Hp Hst | p st Ha Hp Hst |].
  - done.
  - destruct st; [done | |]; cbn; rewrite Hm; done.
  - destruct st; [done | |]; cbn; rewrite Hm; done.
  - done.
Qed.

Lemma run_unmounted_same es w i h :
  hooks w !! i = Some h -> isMounted h = false ->
  exists h', hooks (run es w) !! i = Some h' /\
             settings h' = settings h /\ isLoading h' = isLoading h /\
             error h' = error h /\ isMounted h' = false.
Proof.
  revert w h. induction es as [|e es IH]; intros w h Hi Hm; [by exists h|].
  rewrite run_cons.
  destruct (step_hooks_old w e i h Hi) as (h1 & Hh1 & Hev).
  destruct (evolves_unmounted_same _ _ _ Hm Hev) as (Hs & Hl & He & Hm1).
  destruct (IH _ _ Hh1 Hm1) as (h' & Hh' & Hs' & Hl' & He' & Hm').
  exists h'. repeat split; congruence.
Qed.

(** X3: once the cleanup of a hook has run, no later event changes the settings,
    the loading flag or the error it holds. *)
Theorem unmounted_hook_is_frozen w i h es :
  hooks w !! i = Some h ->
  exists h', hooks (run (Unmount i :: es) w) !! i = Some h' /\
             settings h' = settings h /\ isLoading h' = isLoading h /\
             error h' = error h /\ isMounted h' = false.
Proof.
  intros Hi. rewrite run_cons. cbn [UseSiteSettings.step].
  unfold UseSiteSettings.unmount. rewrite Hi.
  apply (run_unmounted_same es _ i (UseSiteSettings.unmounted h)); [|done].
  cbn [set_hook hooks]. apply list_lookup_insert_eq. by eapply lookup_lt_Some.
Qed.

(** X4: a hook that started the fetch and was unmounted before the answer still
    writes the result into the cache and clears the in-flight slot; what it
    shows itself stays as it was. *)
Theorem unmounted_starter_fills_cache w0 o result :
  settingsCache w0 = None -> fetchPromise w0 = None ->
  fetch_body o = Fulfilled result ->
  let p := length (promises w0) in
  let i := length (hooks w0) in
  let w := run [Mount; Unmount i; Respond p o; Deliver i] w0 in
  settingsCache w = Some result /\ fetchPromise w = None /\
  requests w = requests w0 + 1 /\
  hooks w !! i = Some {| settings := DEFAULT_SITE_SETTINGS; isLoading := true;
                         error := None; isMounted := false; awaiting := Returned |}.
Proof.
  intros Hc Hf Ho p i w.
  assert (H : w = {|
    settingsCache := Some result; fetchPromise := None;
    promises := promises w0 ++ [Fulfilled result];
    hooks := hooks w0 ++ [{| settings := DEFAULT_SITE_SETTINGS; isLoading := true;
                             error := None; isMounted := false; awaiting := Returned |}];
    requests := S (requests w0) |}).
  { subst w. rewrite run_cons. cbn [UseSiteSettings.step].
    rewrite mount_eq. unfold UseSiteSettings.mounted. rewrite Hc, Hf.
    rewrite run_cons. cbn [UseSiteSettings.step]. unfold UseSiteSettings.unmount.
    cbn [hooks]. unfold i. rewrite lookup_at_length. unfold set_hook.
    cbn [hooks settingsCache fetchPromise promises requests].
    rewrite insert_at_length.
    rewrite run_cons. cbn [UseSiteSettings.step]. unfold UseSiteSettings.respond.
    cbn [promises]. unfold p. rewrite lookup_at_length.
    cbn [hooks settingsCache fetchPromise promises requests].
    rewrite insert_at_length, Ho.
    rewrite run_cons. cbn [UseSiteSettings.step UseSiteSettings.run foldl].
    unfold UseSiteSettings.deliver.
    cbn [hooks settingsCache fetchPromise promises requests].
    rewrite lookup_at_length.
    cbn [awaiting UseSiteSettings.starter settings isLoading error isMounted].
    rewrite lookup_at_length. rewrite insert_at_length. reflexivity. }
  rewrite H. cbn [hooks settingsCache fetchPromise promises requests].
  repeat split; [lia | apply lookup_at_length].
Qed.

(** X5: an invalidation while a fetch is in flight lets the next call start a
    second fetch beside the first; when the first fetch then fails, its
    starter clears the in-flight slot although the second fetch is still
    pending, and the call after that starts a third. *)
Theorem invalidation_in_flight_refetches w0 o err :
  settingsCache w0 = None -> fetchPromise w0 = None ->
  fetch_body o = Rejected err ->
  let p := length (promises w0) in
  let i := length (hooks w0) in
  let w1 := run [Mount; ClearSiteSettingsCache; Mount] w0 in
  let w2 := run [Respond p o; Deliver i] w1 in
  requests w1 = requests w0 + 2 /\
  promises w1 !! p = Some Pending /\ promises w1 !! (p + 1) = Some Pending /\
  fetchPromise w1 = Some (p + 1) /\
  promises w2 !! (p + 1) = Some Pending /\ fetchPromise w2 = None /\
  settingsCache w2 = None /\
  requests (mount w2) = requests w0 + 3.
Proof.
  intros Hc Hf Ho p i w1 w2.
  assert (H1 : w1 = {|
    settingsCache := None; fetchPromise := Some (p + 1);
    promises := promises w0 ++ [Pending; Pending];
    hooks := hooks w0 ++ [starter p; starter (p + 1)];
    requests := S (S (requests w0)) |}).
  { subst w1. rewrite run_cons. cbn [UseSiteSettings.step].
    rewrite mount_eq. unfold UseSiteSettings.mounted. rewrite Hc, Hf.
    rewrite run_cons. cbn [UseSiteSettings.step UseSiteSettings.run foldl].
    rewrite mount_eq. unfold UseSiteSettings.mounted.
    cbn [clearSiteSettingsCache hooks settingsCache fetchPromise promises requests].
    rewrite <- !app_assoc, length_app. reflexivity. }
  assert (H2 : w2 = {|
    settingsCache := None; fetchPromise := None;
    promises := promises w0 ++ [Rejected err; Pending];
    hooks := hooks w0 ++ [resolved (Rejected err); starter (p + 1)];
    requests := S (S (requests w0)) |}).
  { subst w2. rewrite H1. rewrite run_cons. cbn [UseSiteSettings.step].
    unfold UseSiteSettings.respond. cbn [promises]. unfold p.
    rewrite lookup_at_length.
    cbn [hooks settingsCache fetchPromise promises requests]. unfold p.
    rewrite insert_at_length, Ho.
    rewrite run_cons. cbn [UseSiteSettings.step UseSiteSettings.run foldl].
    unfold UseSiteSettings.deliver.
    cbn [hooks settingsCache fetchPromise promises requests]. unfold i.
    rewrite lookup_at_length. cbn [awaiting UseSiteSettings.starter]. unfold p.
    rewrite lookup_at_length. rewrite insert_at_length. reflexivity. }
  rewrite H1. cbn [hooks settingsCache fetchPromise promises requests].
  split; [lia|]. split; [apply lookup_at_length|].
  split; [unfold p; by rewrite lookup_fresh|]. split; [done|].
  rewrite mount_eq, H2. cbn [hooks settingsCache fetchPromise promises requests].
  split; [unfold p; by rewrite lookup_fresh|]. repeat split. lia.
Qed.

(** X6: every settings value a hook ever shows is the defaults or the
    mapping of a row. *)
Theorem settings_come_from_the_store es i h :
  hooks (run es initial) !! i = Some h ->
  settings h = DEFAULT_SITE_SETTINGS \/ exists row, settings h = rowToSiteSettings row.
Proof.
  destruct (run_settings_all
              (fun s => s = DEFAULT_SITE_SETTINGS \/ exists row, s = rowToSiteSettings row)
              es (or_introl eq_refl) (fun row => or_intror (ex_intro _ row eq_refl)))
    as [_ _ Hh].
  apply Hh.
Qed.



(** X9: whenever the continuation of a mounted hook runs after the promise it
    awaits has settled -- whatever happened to the slots in between -- the
    hook returns, stops loading, and holds the result of that promise or its
    error. *)
Theorem waiter_receives_outcome w i h p st :
  hooks w !! i = Some h ->
  awaiting h = Started p \/ awaiting h = Joined p ->
  promises w !! p = Some st -> st <> Pending -> isMounted h = true ->
  exists h', hooks (deliver i w) !! i = Some h' /\
             awaiting h' = Returned /\ isLoading h' = false /\
             match st with
             | Fulfilled result => settings h' = result
             | Rejected err => error h' = Some (as_error err)
             | Pending => False
             end.
Proof.
  intros Hi Ha Hp Hst Hm. pose proof (lookup_lt_Some _ _ _ Hi) as Hlt.
  unfold UseSiteSettings.deliver. rewrite Hi.
  destruct Ha as [Ha | Ha]; rewrite Ha, Hp.
  - exists (resume_started DEFAULT_SITE_SETTINGS h st).
    destruct st as [| r | err]; [done | |]; cbn [hooks];
      (split; [by apply list_lookup_insert_eq|]); cbn; rewrite Hm; done.
  - exists (resume_joined h st).
    destruct st as [| r | err]; [done | |]; cbn [set_hook hooks];
      (split; [by apply list_lookup_insert_eq|]); cbn; rewrite Hm; done.
Qed.

End CacheInvariants.

(** ** The invariants at the values of [siteSettingsTypes] *)

Section CacheInvariantExamples.
Import SiteSettingsTypes UseSiteSettings.
Local Open Scope list_scope.
Local Open Scope Z_scope.

(** X10: whatever happened before, [useGlobalPhone] never hands out an empty
    phone number, display form or availability label: each is the stored text
    or its default. *)
Theorem global_phone_never_empty es i h :
  hooks (run_hook es initial) !! i = Some h ->
  global_phoneNumber (useGlobalPhone h) <> "" /\
  global_phoneDisplay (useGlobalPhone h) <> "" /\
  global_phoneAvailability (useGlobalPhone h) <> "".
Proof.
  intros Hi.
  destruct (run_settings_all DEFAULT_SITE_SETTINGS rowToSiteSettings
              (fun s => truthy (phoneNumber s) = true /\
                        truthy (phoneDisplay s) = true /\
                        truthy (phoneAvailability s) = true) es)
    as [_ _ Hh].
  { repeat split. }
  { intros row. repeat split; simpl; by apply or_string_truthy. }
  destruct (Hh i h Hi) as (H1 & H2 & H3). cbn [useGlobalPhone global_phoneNumber
    global_phoneDisplay global_phoneAvailability].
  repeat split; intros E; rewrite E in *; discriminate.
Qed.

Lemma global_phone_never_empty_witness :
  hooks (run_hook (window initial 0 server_error [0%nat]) initial) !! 0%nat
    = Some (resolved DEFAULT_SITE_SETTINGS (Rejected (ThrowError (HttpError 500)))) /\
  global_phoneNumber
    (useGlobalPhone
       (resolved DEFAULT_SITE_SETTINGS (Rejected (ThrowError (HttpError 500))))) <> "".
Proof.
  split; [reflexivity|].
  destruct (global_phone_never_empty (window initial 0 server_error [0%nat]) 0%nat
              (resolved DEFAULT_SITE_SETTINGS (Rejected (ThrowError (HttpError 500))))
              eq_refl) as (H & _).
  exact H.
Defined.

Lemma one_fetch_in_flight_witness :
  no_clear (window initial 2 one_row [2; 0; 1]%nat ++ [Mount; Unmount 0]) = true /\
  requests (run_hook (window initial 2 one_row [2; 0; 1]%nat ++ [Mount; Unmount 0])
              initial)
    = length (promises
                (run_hook (window initial 2 one_row [2; 0; 1]%nat ++ [Mount; Unmount 0])
                   initial)).
Proof.
  split; [reflexivity|].
  destruct (one_fetch_in_flight DEFAULT_SITE_SETTINGS rowToSiteSettings
              (window initial 2 one_row [2; 0; 1]%nat ++ [Mount; Unmount 0]) eq_refl)
    as (_ & _ & H).
  exact H.
Defined.

Lemma cache_holds_a_fetched_value_witness :
  settingsCache (run_hook (window initial 0 one_row [0%nat]) initial)
    = Some (rowToSiteSettings named_row) /\
  exists p, promises (run_hook (window initial 0 one_row [0%nat]) initial) !! p
            = Some (Fulfilled (rowToSiteSettings named_row)).
Proof.
  split; [reflexivity|].
  exact (cache_holds_a_fetched_value DEFAULT_SITE_SETTINGS rowToSiteSettings
           (window initial 0 one_row [0%nat]) (rowToSiteSettings named_row) eq_refl).
Defined.

Lemma unmounted_hook_is_frozen_witness :
  hooks (mount_hook initial) !! 0%nat = Some (starter DEFAULT_SITE_SETTINGS 0) /\
  exists h',
    hooks (run_hook [Unmount 0; Respond 0 one_row; Deliver 0] (mount_hook initial))
      !! 0%nat = Some h' /\
    settings h' = DEFAULT_SITE_SETTINGS.
Proof.
  split; [reflexivity|].
  destruct (unmounted_hook_is_frozen DEFAULT_SITE_SETTINGS rowToSiteSettings
              (mount_hook initial) 0%nat (starter DEFAULT_SITE_SETTINGS 0)
              [Respond 0 one_row; Deliver 0] eq_refl) as (h' & Hh' & Hs & _).
  exists h'. split; [exact Hh' | exact Hs].
Defined.

Lemma unmounted_starter_fills_cache_witness :
  UseSiteSettings.fetch_body DEFAULT_SITE_SETTINGS rowToSiteSettings one_row
    = Fulfilled (rowToSiteSettings named_row) /\
  settingsCache (run_hook [Mount; Unmount 0; Respond 0 one_row; Deliver 0] initial)
    = Some (rowToSiteSettings named_row).
Proof.
  split; [reflexivity|].
  destruct (unmounted_starter_fills_cache DEFAULT_SITE_SETTINGS rowToSiteSettings initial
              one_row (rowToSiteSettings named_row) eq_refl eq_refl eq_refl) as (H & _).
  exact H.
Defined.

Lemma invalidation_in_flight_refetches_witness :
  UseSiteSettings.fetch_body DEFAULT_SITE_SETTINGS rowToSiteSettings server_error
    = Rejected (ThrowError (HttpError 500)) /\
  requests
    (mount_hook
       (run_hook [Respond 0 server_error; Deliver 0]
          (run_hook [Mount; ClearSiteSettingsCache; Mount] initial))) = 3%nat.
Proof.
  split; [reflexivity|].
  destruct (invalidation_in_flight_refetches DEFAULT_SITE_SETTINGS rowToSiteSettings
              initial server_error (ThrowError (HttpError 500)) eq_refl eq_refl eq_refl)
    as (_ & _ & _ & _ & _ & _ & _ & H).
  exact H.
Defined.

Lemma settings_come_from_the_store_witness :
  hooks (run_hook (window initial 0 one_row [0%nat]) initial) !! 0%nat
    = Some (resolved DEFAULT_SITE_SETTINGS (Fulfilled (rowToSiteSettings named_row))) /\
  (rowToSiteSettings named_row = DEFAULT_SITE_SETTINGS \/
   exists row, rowToSiteSettings named_row = rowToSiteSettings row).
Proof.
  split; [reflexivity|].
  exact (settings_come_from_the_store DEFAULT_SITE_SETTINGS rowToSiteSettings
           (window initial 0 one_row [0%nat]) 0%nat
           (resolved DEFAULT_SITE_SETTINGS (Fulfilled (rowToSiteSettings named_row)))
           eq_refl).
Defined.



(** Two hooks mount, the cache is invalidated, and the fetch succeeds. *)
Lemma waiter_receives_outcome_witness :
  let w := run_hook (mounts 2 ++ [ClearSiteSettingsCache; Respond 0 one_row]) initial in
  hooks w !! 1%nat = Some (joiner DEFAULT_SITE_SETTINGS 0) /\
  promises w !! 0%nat = Some (Fulfilled (rowToSiteSettings named_row)) /\
  exists h',
    hooks (UseSiteSettings.deliver DEFAULT_SITE_SETTINGS 1 w) !! 1%nat = Some h' /\
    settings h' = rowToSiteSettings named_row.
Proof.
  intros w. split; [reflexivity|]. split; [reflexivity|].
  destruct (waiter_receives_outcome DEFAULT_SITE_SETTINGS w 1%nat
              (joiner DEFAULT_SITE_SETTINGS 0) 0%nat
              (Fulfilled (rowToSiteSettings named_row)) eq_refl (or_intror eq_refl)
              eq_refl ltac:(discriminate) eq_refl) as (h' & Hh' & _ & _ & Hs).
  exists h'. split; [exact Hh' | exact Hs].
Defined.

End CacheInvariantExamples.

(* ===================================================================== *)
(** * Further properties of the page content editor *)
(* ===================================================================== *)

Section EditorMore.
Import PageContentEditor.
Local Open Scope list_scope.

(** *** Strings *)

Lemma append_cons (c : Ascii.ascii) (s t : string) :
  (String c s ++ t)%string = String c (s ++ t).
Proof. reflexivity. Qed.

Lemma append_nil_l (t : string) : ("" ++ t)%string = t.
Proof. reflexivity. Qed.

Lemma append_nil_r (s : string) : (s ++ "")%string = s.
Proof. induction s as [|c s IH]; [done | by rewrite append_cons, IH]. Qed.

Lemma append_assoc (a b c : string) : ((a ++ b) ++ c)%string = (a ++ (b ++ c))%string.
Proof. induction a as [|x a IH]; [done | by rewrite !append_cons, IH]. Qed.

Lemma prefix_append (a b : string) : String.prefix a (a ++ b) = true.
Proof.
  induction a as [|x a IH]; [by destruct b|].
  rewrite append_cons. simpl.
  destruct (Ascii.ascii_dec x x); [done | congruence].
Qed.

Lemma prefix_head c0 sep c s :
  c <> c0 -> String.prefix (String c0 sep) (String c s) = false.
Proof.
  intros Hne. simpl. destruct (Ascii.ascii_dec c0 c); [congruence | done].
Qed.

(** *** [split] after [join] *)

(** The rest of a separator that has matched is passed over. *)
Lemma split_from_skip sep t cur s :
  split_from sep (String.length t) cur (t ++ s) = split_from sep 0 cur s.
Proof.
  induction t as [|c t IH]; [done | rewrite append_cons; exact IH].
Qed.

Lemma split_from_sep c0 sep cur s :
  split_from (String c0 sep) 0 cur (String c0 sep ++ s)
    = cur :: split_from (String c0 sep) 0 "" s.
Proof.
  rewrite append_cons. cbn [split_from]. rewrite <- append_cons.
  rewrite prefix_append. cbn [String.length]. rewrite Nat.sub_succ, Nat.sub_0_r.
  by rewrite split_from_skip.
Qed.

(** A segment without the first character of the separator is collected
    whole. *)
Lemma split_from_segment c0 sep x cur s :
  occurs c0 x = false ->
  split_from (String c0 sep) 0 cur (x ++ s)
    = split_from (String c0 sep) 0 (cur ++ x) s.
Proof.
  revert cur. induction x as [|c x IH]; intros cur Hx.
  - by rewrite append_nil_l, append_nil_r.
  - simpl in Hx. apply orb_false_iff in Hx as [Hc Hx].
    rewrite append_cons. cbn [split_from]. rewrite prefix_head.
    + rewrite IH by done. rewrite append_assoc, append_cons, append_nil_l.
      reflexivity.
    + intros ->. by rewrite Ascii.eqb_refl in Hc.
Qed.

Lemma split_join c0 sep l :
  l <> [] -> forallb (fun x => negb (occurs c0 x)) l = true ->
  split (String c0 sep) (join (String c0 sep) l) = l.
Proof.
  unfold split. induction l as [|x [|y rest] IH]; intros Hne Hl; [done | |].
  - cbn in Hl. rewrite andb_true_r in Hl. apply negb_true_iff in Hl.
    cbn [join]. rewrite <- (append_nil_r x) at 1.
    rewrite split_from_segment by done. reflexivity.
  - cbn [forallb] in Hl. apply andb_true_iff in Hl as [Hx Hl].
    apply negb_true_iff in Hx.
    change (join (String c0 sep) (x :: y :: rest))
      with ((x ++ String c0 sep ++ join (String c0 sep) (y :: rest))%string).
    rewrite split_from_segment by done. rewrite split_from_sep.
    rewrite IH by done. reflexivity.
Qed.

Lemma filter_truthy_all (l : list string) :
  forallb truthy l = true -> filter (fun x => truthy x = true) l = l.
Proof.
  induction l as [|y l IH]; [done|]. cbn [forallb]. intros H.
  apply andb_true_iff in H as [Hy Hl].
  rewrite filter_cons, decide_True by done. by rewrite IH.
Qed.

Lemma forallb_and {A : Type} (f g : A -> bool) (l : list A) :
  forallb (fun x => f x && g x) l = forallb f l && forallb g l.
Proof.
  induction l as [|y l IH]; [done|]. cbn [forallb]. rewrite IH.
  destruct (f y), (g y), (forallb f l); reflexivity.
Qed.

(** Joining plain lines and splitting the text again, empty segments left
    out, gives the lines back. *)
Lemma lines_round_trip c0 sep l :
  forallb (fun x => truthy x && negb (occurs c0 x)) l = true ->
  filter (fun x => truthy x = true) (split (String c0 sep) (join (String c0 sep) l)) = l.
Proof.
  rewrite forallb_and. intros Hl. apply andb_true_iff in Hl as [Ht Ho].
  destruct l as [|x rest]; [reflexivity|].
  rewrite split_join by done. by apply filter_truthy_all.
Qed.

Lemma strings_of_strings l : strings_of (VString <$> l) = Some l.
Proof.
  induction l as [|x l IH]; [done|]. rewrite fmap_cons. cbn [strings_of].
  by rewrite IH.
Qed.

Lemma strings_of_inv elems l : strings_of elems = Some l -> elems = VString <$> l.
Proof.
  revert l. induction elems as [|v elems IH]; intros l; simpl.
  - by intros [= <-].
  - destruct v; try discriminate.
    destruct (strings_of elems) as [l0|]; [|discriminate].
    intros [= <-]. rewrite fmap_cons. by rewrite (IH l0).
Qed.
(** *** Reading the lines of a document *)

Lemma lines_of_inv content section field l st st0 :
  lines_of content section field st = Some (l, st0) ->
  st0 = st /\
  exists a props b sprops c,
    content = VRef a /\ heap st !! a = Some (Object props) /\
    lookup_prop section props = VRef b /\ heap st !! b = Some (Object sprops) /\
    lookup_prop field sprops = VRef c /\ heap st !! c = Some (Array (VString <$> l)).
Proof.
  unfold lines_of, bind, get.
  destruct content as [| | | | |a]; try discriminate;
    try (cbn; discriminate).
  destruct (heap st !! a) as [[props|elems0]|] eqn:Ha; try discriminate.
  destruct (lookup_prop section props) as [| | | | |b] eqn:Hsec; try discriminate;
    try (cbn; discriminate).
  destruct (heap st !! b) as [[sprops|elems0]|] eqn:Hb; try discriminate.
  destruct (lookup_prop field sprops) as [| | | | |c] eqn:Hf; try discriminate.
  destruct (heap st !! c) as [[ps|elems]|] eqn:Hc; try discriminate.
  destruct (strings_of elems) as [l0|] eqn:Hs; [|discriminate].
  intros [= <- <-]. split; [done|].
  apply strings_of_inv in Hs as ->. eauto 12.
Qed.

Lemma lines_of_eq a props b sprops c l section field st :
  heap st !! a = Some (Object props) ->
  lookup_prop section props = VRef b -> heap st !! b = Some (Object sprops) ->
  lookup_prop field sprops = VRef c -> heap st !! c = Some (Array (VString <$> l)) ->
  lines_of (VRef a) section field st = Some (l, st).
Proof.
  intros Ha Hsec Hb Hf Hc. unfold lines_of, bind, get.
  rewrite Ha, Hsec, Hb, Hf, Hc, strings_of_strings. reflexivity.
Qed.

(** The separators of the textareas of lines begin with a line feed. *)
Lemma handlers_separator e section field sep :
  In (SectionLines section field sep) (handlers e) ->
  exists rest, sep = String (Ascii.ascii_of_nat 10) rest.
Proof.
  destruct e; cbn [handlers In]; intros H;
    repeat (destruct H as [H | H]; [try discriminate H; injection H as _ _ <-;
                                    by eexists|]);
    done.
Qed.

(** ** Textareas of lines *)

(** X15: a change event that carries the text a textarea of lines displays stores
    the lines the document had, when each of them is non-empty and has no
    line feed in it. *)
Theorem lines_redisplay e section field sep content index l st :
  In (SectionLines section field sep) (handlers e) ->
  lines_of content section field st = Some (l, st) ->
  forallb plain l = true ->
  exists doc st',
    displayed content section field sep st = Some (join sep l, st) /\
    handle content (SectionLines section field sep) index (join sep l) st
      = Some (tt, st') /\
    calls st' = calls st ++ [doc] /\
    lines_of doc section field st' = Some (l, st').
Proof.
  intros Hin Hl Hplain.
  destruct (handlers_separator _ _ _ _ Hin) as [rest ->].
  destruct (lines_of_inv _ _ _ _ _ _ Hl)
    as (_ & a & props & b & sprops & c & -> & Ha & Hsec & Hb & Hf & Hc).
  assert (Hr : rendered (heap st)
                 (path (SectionLines section field (String (Ascii.ascii_of_nat 10) rest))
                    index) (VRef a) = true).
  { cbn [path rendered]. rewrite Ha, Hsec, Hb. reflexivity. }
  destruct (handle_SectionLines section field _ index
              (join (String (Ascii.ascii_of_nat 10) rest) l) (VRef a) st Hr)
    as (doc & st' & Hrun & Hcalls & _ & x & (ax & -> & _ & Hax) & Hed).
  exists doc, st'. split; [|split; [exact Hrun | split; [exact Hcalls|]]].
  { unfold displayed, bind. rewrite Hl. reflexivity. }
  cbn [path edited] in Hed.
  destruct Hed as (a0 & a' & props0 & props' & _ & -> & _ & _ & Ha' & _ & _ & Hed).
  destruct Hed as (b0 & b' & sp0 & sp' & _ & Hsec' & _ & _ & Hb' & _ & _ & Hfield).
  rewrite lines_round_trip in Hax by exact Hplain.
  by eapply lines_of_eq.
Qed.

Lemma lines_redisplay_witness :
  In (SectionLines "mission" "paragraphs" PARAGRAPHS) (handlers HomePageEditor) /\
  lines_of (VRef 6) "mission" "paragraphs" home_state = Some (["We fight."], home_state) /\
  exists doc st',
    handle (VRef 6) (SectionLines "mission" "paragraphs" PARAGRAPHS) 0 "We fight."
      home_state = Some (tt, st') /\
    lines_of doc "mission" "paragraphs" st' = Some (["We fight."], st').
Proof.
  assert (H1 : In (SectionLines "mission" "paragraphs" PARAGRAPHS)
                 (handlers HomePageEditor)) by (simpl; auto 20).
  split; [exact H1|]. split; [reflexivity|].
  destruct (lines_redisplay HomePageEditor "mission" "paragraphs" PARAGRAPHS (VRef 6) 0
              ["We fight."] home_state H1 eq_refl eq_refl)
    as (doc & st' & _ & Hrun & _ & Hl).
  exists doc, st'. split; [exact Hrun | exact Hl].
Defined.

(** ** The list operations of [ArrayEditor] *)

Lemma filter_index_past (t i : nat) (l : list Val) :
  t < i -> filter_index (fun j => negb (Nat.eqb j t)) i l = l.
Proof.
  revert i. induction l as [|x l IH]; intros i Hi; [done|].
  cbn [filter_index].
  replace (Nat.eqb i t) with false by (symmetry; apply Nat.eqb_neq; lia).
  cbn [negb]. f_equal. apply IH. lia.
Qed.

(** Keeping the positions other than [index] deletes the element there. *)
Lemma filter_index_delete (index i : nat) (l : list Val) :
  filter_index (fun j => negb (Nat.eqb j (i + index))) i l = delete index l.
Proof.
  revert index i. induction l as [|x l IH]; intros index i; [by destruct index|].
  cbn [filter_index]. destruct index as [|index].
  - rewrite Nat.add_0_r, Nat.eqb_refl. cbn [negb].
    apply filter_index_past. lia.
  - replace (Nat.eqb i (i + S index)) with false by (symmetry; apply Nat.eqb_neq; lia).
    cbn [negb]. replace (i + S index) with (S i + index) by lia.
    rewrite IH. reflexivity.
Qed.

(** X16: removing by position: [onChange] receives a new array, one shorter, that
    holds the items other than the one at [index], in their order; the array
    of the input is as it was. *)
Theorem remove_by_position a elems index st :
  heap st !! a = Some (Array elems) -> index < length elems ->
  exists a' st' elems',
    removeItem (VRef a) onChange index st = Some (tt, st') /\
    calls st' = calls st ++ [VRef a'] /\
    heap st' !! a' = Some (Array elems') /\
    elems' = filter_index (fun i => negb (Nat.eqb i index)) 0 elems /\
    length elems' = length elems - 1 /\
    (forall j, j < index -> elems' !! j = elems !! j) /\
    (forall j, index <= j -> elems' !! j = elems !! S j) /\
    a' <> a /\ heap st' !! a = Some (Array elems).
Proof.
  intros Ha Hi.
  exists (length (heap st)),
    {| heap := heap st ++ [Array (delete index elems)];
       calls := calls st ++ [VRef (length (heap st))] |}, (delete index elems).
  split. { unfold removeItem, bind, alloc, onChange. rewrite Ha. reflexivity. }
  cbn [heap calls]. split; [done|]. split; [apply lookup_at_length|].
  split; [symmetry; apply (filter_index_delete index 0)|].
  split; [apply length_delete; by apply lookup_lt_is_Some|].
  split; [intros j Hj; by apply list_lookup_delete_lt|].
  split; [intros j Hj; by apply list_lookup_delete_ge|].
  split; [apply lookup_lt_Some in Ha; lia | by apply lookup_old].
Qed.

Lemma remove_by_position_witness :
  home_store !! 5 = Some (Array [VRef 3; VRef 4]) /\
  exists a' st',
    removeItem (VRef 5) onChange 0 home_state = Some (tt, st') /\
    heap st' !! a' = Some (Array [VRef 4]).
Proof.
  split; [reflexivity|].
  destruct (remove_by_position 5 [VRef 3; VRef 4] 0 home_state eq_refl ltac:(simpl; lia))
    as (a' & st' & elems' & Hrun & _ & Hh & -> & _).
  exists a', st'. split; [exact Hrun | exact Hh].
Defined.

(** X17: adding an item and then removing the last one gives an array with the
    items there were: each step passes a new array to [onChange], and the
    array of the input is as it was. *)
Theorem add_then_remove_last a elems template st :
  heap st !! a = Some (Array elems) ->
  exists a1 st1 a2 st2,
    addItem (VRef a) (alloc (Object template)) onChange st = Some (tt, st1) /\
    calls st1 = calls st ++ [VRef a1] /\
    removeItem (VRef a1) onChange (length elems) st1 = Some (tt, st2) /\
    calls st2 = calls st1 ++ [VRef a2] /\
    heap st2 !! a2 = Some (Array elems) /\
    a1 <> a /\ a2 <> a /\ heap st2 !! a = Some (Array elems).
Proof.
  intros Ha. pose proof (lookup_lt_Some _ _ _ Ha) as Hlt.
  exists (length (heap st) + 1),
    {| heap := heap st ++ [Object template;
                           Array (elems ++ [VRef (length (heap st))])];
       calls := calls st ++ [VRef (length (heap st) + 1)] |},
    (length (heap st) + 2),
    {| heap := heap st ++ [Object template;
                           Array (elems ++ [VRef (length (heap st))]);
                           Array elems];
       calls := (calls st ++ [VRef (length (heap st) + 1)])
                  ++ [VRef (length (heap st) + 2)] |}.
  split.
  { unfold addItem, bind, iterate, alloc, onChange. rewrite Ha. cbn [heap calls].
    rewrite <- app_assoc, length_app. reflexivity. }
  cbn [heap calls]. split; [done|]. split.
  { unfold removeItem, bind, alloc, onChange. cbn [heap calls].
    rewrite lookup_fresh. cbn [lookup list_lookup].
    rewrite <- app_assoc, length_app. cbn [app length].
    rewrite (delete_middle elems []), app_nil_r.
    replace (length (heap st) + 2) with (length (heap st) + 1 + 1) by lia.
    by rewrite <- !app_assoc. }
  split; [done|]. split; [by rewrite lookup_fresh|].
  split; [lia|]. split; [lia | by apply lookup_old].
Qed.

Lemma add_then_remove_last_witness :
  home_store !! 5 = Some (Array [VRef 3; VRef 4]) /\
  exists a1 st1 a2 st2,
    addItem (VRef 5) (alloc (Object [("icon", VString "trial-driven");
                                     ("title", VString ""); ("description", VString "")]))
      onChange home_state = Some (tt, st1) /\
    calls st1 = [VRef a1] /\
    removeItem (VRef a1) onChange 2 st1 = Some (tt, st2) /\
    heap st2 !! a2 = Some (Array [VRef 3; VRef 4]).
Proof.
  split; [reflexivity|].
  destruct (add_then_remove_last 5 [VRef 3; VRef 4]
              [("icon", VString "trial-driven"); ("title", VString "");
               ("description", VString "")] home_state eq_refl)
    as (a1 & st1 & a2 & st2 & H1 & H2 & H3 & _ & H4 & _).
  exists a1, st1, a2, st2. repeat split; assumption.
Defined.

End EditorMore.
